(** * SalesForecast: the forecasting pipeline of [src/components/SalesForecast.jsx]

    A shallow embedding of the component's pipeline functions:
    - [targetFileUpload] (the [reader.onload] body): CSV text to observations;
    - [dataProcessing]: observations to feature rows and the encoding table;
    - [predictSales]: six forecast rows per product;
    - [trainModel]: the handler that chains the two calls of [dataProcessing];
    - [getChartData], [products] and the conditions under which the button,
      the selector and the chart are rendered.

    Conventions of the embedding.
    - A JavaScript string is a [string]; one [ascii] stands for one UTF-16
      code unit below 256.
    - A JavaScript number is a [jsnum]: [NaN], a signed infinity, or a finite
      value carried as an exact rational.  Overflow to an infinity at the
      binary64 threshold is modelled; rounding of finite values is not.
    - The [encoder] object is an ordinary object: its own properties are a
      finite map from names to numbers, and a read falls back on
      [Object.prototype]; assigning a number to [__proto__] changes
      nothing.
    - The host's time zone is a constant offset from UTC ([LocalTZA], in
      milliseconds); a zone whose offset changes with daylight saving is
      outside the model, and every statement about the local calendar is
      for a constant offset.
    - Tensors and the network are not modelled: a trained model is a
      function from the feature row it is given to its raw output.
    - React state: a handler reads the values captured by the render that
      created it (the snapshot) and writes through setters to the store. *)

From Stdlib Require Import ZArith QArith Qabs Qround Lia Lqa Ascii String List Sorted.
From stdpp Require Import base list gmap strings.

Open Scope Z_scope.

(* ===================================================================== *)
(** ** Strings as the built-ins see them *)
(* ===================================================================== *)

Module JsString.

Definition code (c : ascii) : N := N_of_ascii c.

(** WhiteSpace and LineTerminator code units below 256: TAB, LF, VT, FF, CR,
    SP and NBSP. *)
Definition is_space (c : ascii) : bool :=
  let n := code c in
  ((9 <=? n) && (n <=? 13) || (n =? 32) || (n =? 160))%N.

Definition is_digit (c : ascii) : bool :=
  let n := code c in ((48 <=? n) && (n <=? 57))%N.

Definition digit_val (c : ascii) : Z := Z.of_N (code c) - 48.

Definition quote : ascii := Ascii.ascii_of_N 34.
Definition comma : ascii := Ascii.ascii_of_N 44.
Definition newline : ascii := Ascii.ascii_of_N 10.

Fixpoint trimStart (s : string) : string :=
  match s with
  | EmptyString => EmptyString
  | String c s' => if is_space c then trimStart s' else s
  end.

Fixpoint rev_onto (s acc : string) : string :=
  match s with
  | EmptyString => acc
  | String c s' => rev_onto s' (String c acc)
  end.

Definition rev (s : string) : string := rev_onto s EmptyString.

Definition trimEnd (s : string) : string := rev (trimStart (rev s)).

(** [String.prototype.trim] *)
Definition trim (s : string) : string := trimEnd (trimStart s).

(** [s.split(sep)] for a one-character separator: never the empty array. *)
Fixpoint split (sep : ascii) (s : string) : list string :=
  match s with
  | EmptyString => [EmptyString]
  | String c s' =>
      if Ascii.eqb c sep then EmptyString :: split sep s'
      else match split sep s' with
           | hd :: tl => String c hd :: tl
           | [] => [String c EmptyString]
           end
  end.

(** [s.replace] with the global double-quote pattern and the empty
    replacement: every double quote goes, wherever it stands. *)
Fixpoint remove_quotes (s : string) : string :=
  match s with
  | EmptyString => EmptyString
  | String c s' =>
      if Ascii.eqb c quote then remove_quotes s' else String c (remove_quotes s')
  end.

Fixpoint contains (c : ascii) (s : string) : bool :=
  match s with
  | EmptyString => false
  | String c' s' => Ascii.eqb c' c || contains c s'
  end.

Fixpoint all_chars (p : ascii → bool) (s : string) : bool :=
  match s with
  | EmptyString => true
  | String c s' => p c && all_chars p s'
  end.

(** [s.match(/^\d{4}-\d{2}$/)] as a test. *)
Definition matches_year_month (s : string) : bool :=
  match s with
  | String y1 (String y2 (String y3 (String y4 (String d
      (String m1 (String m2 EmptyString)))))) =>
      is_digit y1 && is_digit y2 && is_digit y3 && is_digit y4
      && Ascii.eqb d "-" && is_digit m1 && is_digit m2
  | _ => false
  end.

(** [s.slice(0, n)] *)
Fixpoint slice0 (n : nat) (s : string) : string :=
  match n, s with
  | S n', String c s' => String c (slice0 n' s')
  | _, _ => EmptyString
  end.

(** [prefix] is an initial segment of [s]; the rest is returned. *)
Fixpoint strip_prefix (prefix s : string) : option string :=
  match prefix, s with
  | EmptyString, _ => Some s
  | String p prefix', String c s' =>
      if Ascii.eqb p c then strip_prefix prefix' s' else None
  | String _ _, EmptyString => None
  end.

(** The longest run of characters satisfying [p], and what follows. *)
Fixpoint span (p : ascii → bool) (s : string) : list ascii * string :=
  match s with
  | EmptyString => ([], EmptyString)
  | String c s' =>
      if p c then let '(run, rest) := span p s' in (c :: run, rest)
      else ([], s)
  end.

End JsString.

(* ===================================================================== *)
(** ** Numbers *)
(* ===================================================================== *)

Module JsNumber.
Import JsString.

(** A Number value.  The sign of zero is not tracked. *)
Inductive jsnum : Type :=
| NaN
| Inf (negative : bool)
| Fin (q : Q).

Definition isNaN (n : jsnum) : bool :=
  match n with NaN => true | _ => false end.

Definition isFinite (n : jsnum) : bool :=
  match n with Fin _ => true | _ => false end.

Definition Qneg_bool (q : Q) : bool := (Qnum q <? 0)%Z.

(** Round-to-nearest sends every magnitude from [2^1024 - 2^970] on to an
    infinity. *)
Definition double_limit : Q := inject_Z (2 ^ 1024 - 2 ^ 970).

Definition of_Q (q : Q) : jsnum :=
  if Qle_bool double_limit (Qabs q) then Inf (Qneg_bool q) else Fin q.

(** An array index or length as a Number: an integer below [2^32], hence
    exact. *)
Definition of_Z (z : Z) : jsnum := Fin (inject_Z z).

Definition js_mul (a b : jsnum) : jsnum :=
  match a, b with
  | NaN, _ | _, NaN => NaN
  | Inf s, Inf t => Inf (xorb s t)
  | Inf s, Fin q | Fin q, Inf s =>
      if Qeq_bool q 0 then NaN else Inf (xorb s (Qneg_bool q))
  | Fin p, Fin q => of_Q (p * q)
  end.

Definition js_div (a b : jsnum) : jsnum :=
  match a, b with
  | NaN, _ | _, NaN => NaN
  | Inf _, Inf _ => NaN
  | Inf s, Fin q => Inf (xorb s (Qneg_bool q))
  | Fin _, Inf _ => Fin 0
  | Fin p, Fin q =>
      if Qeq_bool q 0
      then (if Qeq_bool p 0 then NaN else Inf (Qneg_bool p))
      else of_Q (p / q)
  end.

(** [Math.round]: the nearest integer, halves going up. *)
Definition Math_round (a : jsnum) : jsnum :=
  match a with
  | Fin q => Fin (inject_Z (Qfloor (q + (1 # 2))))
  | _ => a
  end.

Definition Math_max (a b : jsnum) : jsnum :=
  match a, b with
  | NaN, _ | _, NaN => NaN
  | Inf false, _ | _, Inf false => Inf false
  | Inf true, x | x, Inf true => x
  | Fin p, Fin q => Fin (if Qle_bool p q then q else p)
  end.

(** *** Numeric literals in strings *)

Definition digits_value (ds : list ascii) : Z :=
  fold_left (λ acc c, 10 * acc + digit_val c) ds 0.

Definition take_sign (s : string) : bool * string :=
  match s with
  | String c r =>
      if Ascii.eqb c "+" then (false, r)
      else if Ascii.eqb c "-" then (true, r)
      else (false, s)
  | EmptyString => (false, s)
  end.

(** ExponentPart: [e] or [E], an optional sign, at least one digit. *)
Definition exponent_part (s : string) : option (Z * string) :=
  match s with
  | String c s1 =>
      if Ascii.eqb c "e" || Ascii.eqb c "E" then
        let '(neg, s2) := take_sign s1 in
        match span is_digit s2 with
        | ([], _) => None
        | (ds, rest) =>
            Some (if neg : bool then - digits_value ds else digits_value ds, rest)
        end
      else None
  | EmptyString => None
  end.

Inductive magnitude : Type := MInf | MFin (q : Q).

(** The longest prefix of [s] that is a StrUnsignedDecimalLiteral, with its
    mathematical value, and the rest of [s]. *)
Definition unsigned_decimal (s : string) : option (magnitude * string) :=
  match strip_prefix "Infinity" s with
  | Some rest => Some (MInf, rest)
  | None =>
      let '(ip, s1) := span is_digit s in
      let '(fp, s2) :=
        match s1 with
        | String c r => if Ascii.eqb c "." then span is_digit r else ([], s1)
        | EmptyString => ([], s1)
        end in
      match ip ++ fp with
      | [] => None
      | ds =>
          let '(e, rest) :=
            match exponent_part s2 with
            | Some er => er
            | None => (0, s2)
            end in
          Some (MFin (inject_Z (digits_value ds)
                      * Qpower 10 (e - Z.of_nat (length fp))), rest)
      end
  end.

(** StrDecimalLiteral: an optional sign before the unsigned literal. *)
Definition decimal_literal (s : string) : option (jsnum * string) :=
  let '(neg, s1) := take_sign s in
  match unsigned_decimal s1 with
  | None => None
  | Some (MInf, rest) => Some (Inf neg, rest)
  | Some (MFin q, rest) => Some (of_Q (if neg then - q else q), rest)
  end.

(** [parseFloat(s)] *)
Definition parseFloat (s : string) : jsnum :=
  match decimal_literal (trimStart s) with
  | Some (v, _) => v
  | None => NaN
  end.

Definition is_hex_digit (c : ascii) : bool :=
  let n := code c in
  (is_digit c || (65 <=? n) && (n <=? 70) || (97 <=? n) && (n <=? 102))%N.
Definition is_octal_digit (c : ascii) : bool :=
  let n := code c in ((48 <=? n) && (n <=? 55))%N.
Definition is_binary_digit (c : ascii) : bool :=
  let n := code c in ((48 <=? n) && (n <=? 49))%N.

(** NonDecimalIntegerLiteral: [0x], [0o] or [0b] and at least one digit. *)
Definition non_decimal_literal (s : string) : bool :=
  match s with
  | String z (String p ds) =>
      Ascii.eqb z "0"
      && negb (String.eqb ds EmptyString)
      && (((Ascii.eqb p "x" || Ascii.eqb p "X") && all_chars is_hex_digit ds)
          || ((Ascii.eqb p "o" || Ascii.eqb p "O") && all_chars is_octal_digit ds)
          || ((Ascii.eqb p "b" || Ascii.eqb p "B") && all_chars is_binary_digit ds))
  | _ => false
  end.

(** StringToNumber succeeds: the trimmed string is empty (the value is 0)
    or is, as a whole, a numeric literal. *)
Definition string_is_numeric (s : string) : bool :=
  let t := trim s in
  match t with
  | EmptyString => true
  | _ =>
      match decimal_literal t with
      | Some (_, EmptyString) => true
      | _ => non_decimal_literal t
      end
  end.

(** [isNaN(s)] for a string argument: [Number(s)] is NaN. *)
Definition isNaN_string (s : string) : bool := negb (string_is_numeric s).

End JsNumber.

(* ===================================================================== *)
(** ** Shared data *)
(* ===================================================================== *)

Import JsString JsNumber.

(** The [{date, product, quantity}] objects: the rows of [salesData] and of
    [predictions] have the same shape. *)
Record Entry : Type := mkEntry {
  date : string;
  product : string;
  quantity : jsnum
}.

(** A [try] body either completes with a value or throws an [Error] with a
    message. *)
Inductive outcome (A : Type) : Type :=
| Returned (a : A)
| Threw (message : string).
Arguments Returned {A} a.
Arguments Threw {A} message.

(* ===================================================================== *)
(** ** targetFileUpload: the body of [reader.onload] *)
(* ===================================================================== *)

Module Parser.

(** [line.split(',').map(item => item.trim().replace(QUOTES, ''))] *)
Definition fields (line : string) : list string :=
  map (λ item, remove_quotes (trim item)) (split comma line).

(** One turn of the [for (let line of dataLines)] loop; [continue] leaves
    [parsedData] as it is.  The destructuring binds [quantity] (and
    [product]) to [undefined] when the line has fewer than three fields;
    [parseFloat(undefined)] is [parseFloat] of the string [undefined],
    which is NaN (see [parseFloat_undefined]), so such a line is skipped at
    the date test or at the quantity test. *)
Definition loop_body (parsedData : list Entry) (line : string) : list Entry :=
  if String.eqb (trim line) EmptyString then parsedData
  else
    match fields line with
    | date :: product :: quantity :: _ =>
        if negb (matches_year_month date) then parsedData
        else
          let numQuantity := parseFloat quantity in
          if isNaN numQuantity then parsedData
          else if negb (isNaN_string product) then parsedData
          else parsedData ++ [mkEntry (date +:+ "-01") product numQuantity]
    | _ => parsedData
    end.

(** [text.split('\n').slice(1)] *)
Definition dataLines (text : string) : list string :=
  tail (split newline text).

(** [parsedData] when the loop is over. *)
Definition parsedData_of (text : string) : list Entry :=
  fold_left loop_body (dataLines text) [].

Definition no_valid_data : string :=
  "No valid data could be parsed from the file".

(** The [try] body up to the setters. *)
Definition parse (text : string) : outcome (list Entry) :=
  let parsedData := parsedData_of text in
  if (length parsedData =? 0)%nat then Threw no_valid_data
  else Returned parsedData.

(** *** The parser in the words of the specification

    A data row is well-formed when its date field matches YYYY-MM, its
    quantity field parses as a number and its product field is not
    numeric; the result is the well-formed rows, in order, each with
    [-01] appended to its date. *)

Definition spec_well_formed (row : string) : bool :=
  match fields row with
  | d :: p :: q :: _ =>
      matches_year_month d && negb (isNaN (parseFloat q)) && isNaN_string p
  | _ => false
  end.

Definition spec_observation (row : string) : option Entry :=
  match fields row with
  | d :: p :: q :: _ => Some (mkEntry (d +:+ "-01") p (parseFloat q))
  | _ => None
  end.

Definition spec_parse (text : string) : list Entry :=
  omap spec_observation (filter (λ row, spec_well_formed row = true) (dataLines text)).

End Parser.

(* ===================================================================== *)
(** ** dataProcessing *)
(* ===================================================================== *)

Module Encoder.

(** [new Set(xs)] spread back into an array: a value is added when it
    is not in the set yet, so the order is that of first occurrences. *)
Fixpoint Set_add_all (seen xs : list string) : list string :=
  match xs with
  | [] => seen
  | x :: xs' =>
      Set_add_all (if bool_decide (x ∈ seen) then seen else seen ++ [x]) xs'
  end.

Definition Set_of (xs : list string) : list string := Set_add_all [] xs.

(** [Array.prototype.sort] without a comparator, on strings: ascending in
    code-unit order. *)
Fixpoint sort_insert (x : string) (l : list string) : list string :=
  match l with
  | [] => [x]
  | y :: l' => if String.leb x y then x :: l else y :: sort_insert x l'
  end.

Definition Array_sort (l : list string) : list string :=
  foldr sort_insert [] l.

Definition ascending : list string → Prop :=
  Sorted (λ a b, String.leb a b = true).

(** [l.indexOf(x)], [-1] when [x] is absent. *)
Fixpoint indexOf_from (i : Z) (x : string) (l : list string) : Z :=
  match l with
  | [] => -1
  | y :: l' => if String.eqb y x then i else indexOf_from (i + 1) x l'
  end.

Definition indexOf (l : list string) (x : string) : Z := indexOf_from 0 x l.

Definition length_of {A} (l : list A) : jsnum := of_Z (Z.of_nat (length l)).

(** *** The [encoder] object

    [encoder] starts as the literal [{}]: an ordinary object whose
    prototype is [Object.prototype].  Its own properties are kept as a
    finite map; the values the code assigns are all numbers. *)

(** What reading [encoder[k]] can give. *)
Inductive jsval : Type :=
| Num (n : jsnum)
| Undefined
| ObjectPrototype           (* the object [Object.prototype] itself *)
| Inherited (name : string) (* a method inherited from [Object.prototype] *).

(** The key whose property is an accessor on [Object.prototype]. *)
Definition proto_key : string := "__proto__".

(** The methods of [Object.prototype], all writable data properties. *)
Definition prototype_methods : list string :=
  ["constructor"; "__defineGetter__"; "__defineSetter__"; "hasOwnProperty";
   "__lookupGetter__"; "__lookupSetter__"; "isPrototypeOf";
   "propertyIsEnumerable"; "toString"; "valueOf"; "toLocaleString"]%string.

(** [encoder[k] = v] with [v] a number.  For [__proto__] the assignment
    reaches the setter inherited from [Object.prototype], which ignores a
    value that is neither an object nor [null]: nothing changes.  Any other
    key becomes an own property (the inherited methods are writable, so
    they are shadowed). *)
Definition set_property (k : string) (v : jsnum) (o : gmap string jsnum)
    : gmap string jsnum :=
  if String.eqb k proto_key then o else <[k := v]> o.

(** [encoder[k]]: the own property, or else what [Object.prototype] has
    under that name. *)
Definition get_property (o : gmap string jsnum) (k : string) : jsval :=
  match o !! k with
  | Some v => Num v
  | None =>
      if String.eqb k proto_key then ObjectPrototype
      else if bool_decide (k ∈ prototype_methods) then Inherited k
      else Undefined
  end.

(** [products.forEach((p, i) => encoder[p] = i / products.length)], from
    index [i] on. *)
Fixpoint forEach_encode (count : jsnum) (i : Z) (ps : list string)
    (encoder : gmap string jsnum) : gmap string jsnum :=
  match ps with
  | [] => encoder
  | p :: ps' =>
      forEach_encode count (i + 1) ps'
        (set_property p (js_div (of_Z i) count) encoder)
  end.

(** A row [[x, encoder[p]]] of the array given to [tf.tensor2d]. *)
Definition feature_row : Type := jsnum * jsval.

Record Processed : Type := mkProcessed {
  inputs : list feature_row;
  outputs : list jsnum;
  encoder : gmap string jsnum;
  dates : list string;
  products : list string
}.

Definition no_data : string := "No data available for processing".

(** The [try] body of [dataProcessing]. *)
Definition dataProcessing_try (salesData : list Entry) : outcome Processed :=
  if (length salesData =? 0)%nat then Threw no_data
  else
    let products := Set_of (map product salesData) in
    let dates := Array_sort (Set_of (map date salesData)) in
    let encoder := forEach_encode (length_of products) 0 products ∅ in
    let inputs :=
      map (λ d, (js_div (of_Z (indexOf dates (date d))) (length_of dates),
                 get_property encoder (product d))) salesData in
    let outputs := map (λ d, js_div (quantity d) (Fin 1000)) salesData in
    Returned (mkProcessed inputs outputs encoder dates products).

End Encoder.

(* ===================================================================== *)
(** ** Date *)
(* ===================================================================== *)

Module JsDate.

(** A Date object is its time value: milliseconds since the epoch in UTC,
    or [None] for the invalid date (time value NaN).  Numbers that the
    methods return or accept are integers, or [None] for NaN. *)
Definition Date : Type := option Z.

Definition msPerDay : Z := 86400000.

Definition Day (t : Z) : Z := t / msPerDay.
Definition TimeWithinDay (t : Z) : Z := t mod msPerDay.

(** Day number of a civil date of the proleptic Gregorian calendar
    ([m] from 1 to 12), counted from 1970-01-01. *)
Definition days_from_civil (y m d : Z) : Z :=
  let y' := if m <=? 2 then y - 1 else y in
  let era := y' / 400 in
  let yoe := y' - era * 400 in
  let doy := (153 * (if 2 <? m then m - 3 else m + 9) + 2) / 5 + d - 1 in
  let doe := yoe * 365 + yoe / 4 - yoe / 100 + doy in
  era * 146097 + doe - 719468.

(** The civil date (year, month from 1, day of the month) of a day
    number. *)
Definition civil_from_days (z : Z) : Z * Z * Z :=
  let z' := z + 719468 in
  let era := z' / 146097 in
  let doe := z' - era * 146097 in
  let yoe := (doe - doe / 1460 + doe / 36524 - doe / 146096) / 365 in
  let doy := doe - (365 * yoe + yoe / 4 - yoe / 100) in
  let mp := (5 * doy + 2) / 153 in
  let d := doy - (153 * mp + 2) / 5 + 1 in
  let m := if mp <? 10 then mp + 3 else mp - 9 in
  (yoe + era * 400 + (if m <=? 2 then 1 else 0), m, d).

Definition YearFromTime (t : Z) : Z := fst (fst (civil_from_days (Day t))).
Definition MonthFromTime (t : Z) : Z := snd (fst (civil_from_days (Day t))) - 1.
Definition DateFromTime (t : Z) : Z := snd (civil_from_days (Day t)).

Definition MakeDay (year month date : Z) : Z :=
  days_from_civil (year + month / 12) (month mod 12 + 1) 1 + date - 1.

Definition MakeDate (day time : Z) : Z := day * msPerDay + time.

Definition TimeClip (t : Z) : Date :=
  if Z.abs t <=? 8640000000000000 then Some t else None.

Definition is_leap (y : Z) : bool :=
  (y mod 4 =? 0) && (negb (y mod 100 =? 0) || (y mod 400 =? 0)).

Definition DaysInMonth (y m : Z) : Z :=
  if m =? 2 then (if is_leap y then 29 else 28)
  else if (m =? 4) || (m =? 6) || (m =? 9) || (m =? 11) then 30
  else 31.

(** [new Date(s)] for the date-only form [YYYY-MM-DD], which is read as
    UTC midnight; a month or day out of range gives the invalid date.
    Strings of another form are not produced by the parser and are taken
    as invalid here. *)
Definition new_Date (s : string) : Date :=
  match s with
  | String y1 (String y2 (String y3 (String y4 (String s1
      (String m1 (String m2 (String s2 (String d1 (String d2
        EmptyString))))))))) =>
      if forallb is_digit [y1; y2; y3; y4; m1; m2; d1; d2]
         && Ascii.eqb s1 "-" && Ascii.eqb s2 "-"
      then
        let y := digits_value [y1; y2; y3; y4] in
        let m := digits_value [m1; m2] in
        let d := digits_value [d1; d2] in
        if (1 <=? m) && (m <=? 12) && (1 <=? d) && (d <=? DaysInMonth y m)
        then Some (MakeDate (days_from_civil y m d) 0)
        else None
      else None
  | _ => None
  end.

(** The character of the decimal digit [d]. *)
Definition digit_char (d : Z) : ascii := Ascii.ascii_of_N (48 + Z.to_N d).

(** [n] in decimal, on exactly [width] digits. *)
Fixpoint digits_onto (width : nat) (n : Z) (acc : string) : string :=
  match width with
  | O => acc
  | S w => digits_onto w (n / 10) (String (digit_char (n mod 10)) acc)
  end.

Definition pad (width : nat) (n : Z) : string := digits_onto width n EmptyString.

Definition year_string (y : Z) : string :=
  if (0 <=? y) && (y <=? 9999) then pad 4 y
  else (if y <? 0 then "-" else "+") +:+ pad 6 (Z.abs y).

Definition invalid_time_value : string := "Invalid time value".

(** [d.toISOString()], always in UTC; a RangeError on the invalid date. *)
Definition toISOString (d : Date) : outcome string :=
  match d with
  | None => Threw invalid_time_value
  | Some t =>
      let w := TimeWithinDay t in
      Returned (year_string (YearFromTime t) +:+ "-"
                +:+ pad 2 (MonthFromTime t + 1) +:+ "-"
                +:+ pad 2 (DateFromTime t) +:+ "T"
                +:+ pad 2 (w / 3600000) +:+ ":"
                +:+ pad 2 (w / 60000 mod 60) +:+ ":"
                +:+ pad 2 (w / 1000 mod 60) +:+ "."
                +:+ pad 3 (w mod 1000) +:+ "Z")
  end.

Section Zone.

(** The offset of the host's time zone from UTC, in milliseconds (east
    positive), taken as constant over the dates involved. *)
Variable LocalTZA : Z.

Definition LocalTime (t : Z) : Z := t + LocalTZA.
Definition UTC (t : Z) : Z := t - LocalTZA.

(** [d.getMonth()]: the month, from 0, in local time. *)
Definition getMonth (d : Date) : option Z :=
  match d with
  | None => None
  | Some t => Some (MonthFromTime (LocalTime t))
  end.

(** [d.setMonth(month)]: the new time value of [d]; the day of the month
    and the time within the day are kept, all in local time. *)
Definition setMonth (d : Date) (month : option Z) : Date :=
  match d, month with
  | Some t0, Some m =>
      let t := LocalTime t0 in
      let newDate :=
        MakeDate (MakeDay (YearFromTime t) m (DateFromTime t))
                 (TimeWithinDay t) in
      TimeClip (UTC newDate)
  | _, _ => None
  end.

End Zone.

End JsDate.

(* ===================================================================== *)
(** ** The component: state, predictSales, trainModel *)
(* ===================================================================== *)

Module Component.
Import Encoder JsDate.

(** A trained model, seen through [predict(...).dataSync()[0]]: one raw
    output per feature row. *)
Definition Model : Type := feature_row → jsnum.

(** The state cells of the component ([useState]). *)
Record State : Type := mkState {
  predictions : list Entry;
  salesData : list Entry;
  model : option Model;
  status : string;
  selectedProduct : string;
  isModelTrained : bool
}.

Definition setPredictions (v : list Entry) (s : State) : State :=
  mkState v (salesData s) (model s) (status s) (selectedProduct s) (isModelTrained s).
Definition setSalesData (v : list Entry) (s : State) : State :=
  mkState (predictions s) v (model s) (status s) (selectedProduct s) (isModelTrained s).
Definition setModel (v : option Model) (s : State) : State :=
  mkState (predictions s) (salesData s) v (status s) (selectedProduct s) (isModelTrained s).
Definition setStatus (v : string) (s : State) : State :=
  mkState (predictions s) (salesData s) (model s) v (selectedProduct s) (isModelTrained s).
Definition setIsModelTrained (v : bool) (s : State) : State :=
  mkState (predictions s) (salesData s) (model s) (status s) (selectedProduct s) v.

Definition data_loaded : string :=
  "Data loaded successfully! You can now train the model.".

(** [reader.onload]: the store after the file's text has been handled. *)
Definition onload (text : string) (store : State) : State :=
  match Parser.parse text with
  | Returned parsedData => setStatus data_loaded (setSalesData parsedData store)
  | Threw message => setStatus ("Error parsing file: " +:+ message) store
  end.

(** [dataProcessing]: reads [salesData] of the render that created the
    closure ([snap]); [null] ([None]) and a status message on an error. *)
Definition dataProcessing (snap store : State) : option Processed * State :=
  match dataProcessing_try (salesData snap) with
  | Returned processed => (Some processed, store)
  | Threw message => (None, setStatus ("Error processing data: " +:+ message) store)
  end.

(** The offsets of [for (let i = 1; i <= 6; i++)]. *)
Definition offsets : list Z := [1; 2; 3; 4; 5; 6].

(** [(dates.length + i) / (dates.length + 6)] *)
Definition time_index (dates : list string) (i : Z) : jsnum :=
  js_div (of_Z (Z.of_nat (length dates) + i)) (of_Z (Z.of_nat (length dates) + 6)).

(** The row given to [tf.tensor2d] for [product] at offset [i]. *)
Definition forecast_input (p : Processed) (product : string) (i : Z) : feature_row :=
  (time_index (dates p) i, get_property (encoder p) product).

(** [Math.max(0, Math.round(value))] with [value] the raw output times
    1000. *)
Definition predicted_quantity (raw : jsnum) : jsnum :=
  Math_max (Fin 0) (Math_round (js_mul raw (Fin 1000))).

Section Zone.
Variable LocalTZA : Z.

(** The body of the [for] loop: the entry pushed for [product] at
    offset [i], unless [toISOString] throws. *)
Definition forecast_entry (trainedModel : Model) (p : Processed)
    (lastDate : Date) (product : string) (i : Z) : outcome Entry :=
  let nextDate := lastDate in
  let nextDate :=
    setMonth LocalTZA nextDate (Z.add i <$> getMonth LocalTZA lastDate) in
  match toISOString nextDate with
  | Threw message => Threw message
  | Returned iso =>
      let dateString := slice0 7 iso in
      let value := trainedModel (forecast_input p product i) in
      Returned (mkEntry dateString product (predicted_quantity value))
  end.

(** The inner [for] loop over the offsets still to do. *)
Fixpoint for_offsets (trainedModel : Model) (p : Processed) (lastDate : Date)
    (product : string) (todo : list Z) (predictions : list Entry)
    : outcome (list Entry) :=
  match todo with
  | [] => Returned predictions
  | i :: todo' =>
      match forecast_entry trainedModel p lastDate product i with
      | Threw message => Threw message
      | Returned e =>
          for_offsets trainedModel p lastDate product todo' (predictions ++ [e])
      end
  end.

(** [products.forEach(product => ...)] *)
Fixpoint forEach_product (trainedModel : Model) (p : Processed) (lastDate : Date)
    (ps : list string) (predictions : list Entry) : outcome (list Entry) :=
  match ps with
  | [] => Returned predictions
  | product :: ps' =>
      match for_offsets trainedModel p lastDate product offsets predictions with
      | Threw message => Threw message
      | Returned predictions' =>
          forEach_product trainedModel p lastDate ps' predictions'
      end
  end.

(** [new Date(dates[dates.length - 1])]; [new Date(undefined)] is the
    invalid date. *)
Definition lastDate_of (dates : list string) : Date :=
  match last dates with
  | Some s => new_Date s
  | None => None
  end.

(** [predictSales(trainedModel)]: the store when it returns, or the
    message of the exception that leaves it. *)
Definition predictSales (trainedModel : option Model) (snap store : State)
    : outcome State :=
  match trainedModel with
  | None => Returned store
  | Some m =>
      match dataProcessing snap store with
      | (None, store1) => Returned store1
      | (Some p, store1) =>
          match forEach_product m p (lastDate_of (dates p)) (products p) [] with
          | Threw message => Threw message
          | Returned predictions => Returned (setPredictions predictions store1)
          end
      end
  end.

Definition training_started : string := "Training started...".
Definition training_completed : string :=
  "Training model completed! Predictions of sales generated.".

(** [trainModel].  [fit] stands for building, compiling and fitting the
    network on the tensors and may throw; [during_fit] is whatever
    happens to the store while the handler waits at [await]: progress
    messages, another upload. *)
Definition trainModel
    (fit : list feature_row → list jsnum → outcome Model)
    (during_fit : State → State) (snap store : State) : State :=
  let store := setStatus training_started store in
  match dataProcessing snap store with
  | (None, store) => store
  | (Some processed, store) =>
      match fit (inputs processed) (outputs processed) with
      | Threw message => setStatus message (during_fit store)
      | Returned m =>
          let store := during_fit store in
          let store := setIsModelTrained true (setModel (Some m) store) in
          match predictSales (Some m) snap store with
          | Threw message => setStatus message store
          | Returned store => setStatus training_completed store
          end
      end
  end.

End Zone.

End Component.

(* ===================================================================== *)
(** ** getChartData and what the component renders *)
(* ===================================================================== *)

Module Chart.
Import Component.

(** [selectedProduct === 'all' ? predictions
      : predictions.filter(d => d.product === selectedProduct)] *)
Definition filteredPredictions (s : State) : list Entry :=
  if String.eqb (selectedProduct s) "all" then predictions s
  else filter (λ d, product d = selectedProduct s) (predictions s).

(** The [{name, predicted, product}] objects given to the line chart. *)
Record ChartRow : Type := mkChartRow {
  name : string;
  predicted : jsnum;
  product : string
}.

(** [d => ({name: d.date, predicted: d.quantity, product: d.product})] *)
Definition chart_row (d : Entry) : ChartRow :=
  let 'mkEntry date product quantity := d in mkChartRow date quantity product.

Section Locale.

(** [a.localeCompare(b)]: negative, zero or positive.  The collation is the
    host's; it is a consistent ordering of strings, which is what makes the
    result of [sort] determined: the stable sorted arrangement. *)
Variable localeCompare : string → string → Z.

(** The comparator [(a, b) => a.name.localeCompare(b.name)] *)
Definition by_name (a b : ChartRow) : Z := localeCompare (name a) (name b).

Fixpoint sort_insert (x : ChartRow) (l : list ChartRow) : list ChartRow :=
  match l with
  | [] => [x]
  | y :: l' => if by_name x y <=? 0 then x :: l else y :: sort_insert x l'
  end.

(** [rows.sort(by_name)]: rows that compare equal keep their order. *)
Definition Array_sort (rows : list ChartRow) : list ChartRow :=
  foldr sort_insert [] rows.

(** [getChartData()] *)
Definition getChartData (s : State) : list ChartRow :=
  Array_sort (map chart_row (filteredPredictions s)).

End Locale.

End Chart.

Module View.
Import Component.

(** The state cells as [useState] first makes them. *)
Definition initial : State := mkState [] [] None EmptyString "all" false.

Definition setSelectedProduct (v : string) (s : State) : State :=
  mkState (predictions s) (salesData s) (model s) (status s) v (isModelTrained s).

(** [const products = [...new Set(salesData.map(d => d.product))]] of the
    component body. *)
Definition products (s : State) : list string :=
  Encoder.Set_of (map product (salesData s)).

(** The button's [disabled={salesData.length === 0}]. *)
Definition train_disabled (s : State) : bool :=
  (length (salesData s) =? 0)%nat.

(** The [select] is rendered when [salesData.length > 0]. *)
Definition select_shown (s : State) : bool :=
  (0 <? length (salesData s))%nat.

(** The values of the [option] elements, in order. *)
Definition select_options (s : State) : list string :=
  "all"%string :: products s.

(** The chart is rendered when [isModelTrained && predictions.length > 0]. *)
Definition chart_shown (s : State) : bool :=
  isModelTrained s && (0 <? length (predictions s))%nat.

(** What the handlers keep true of the state: the trained flag is set
    exactly when a model is stored, and predictions are stored only with
    the flag set. *)
Definition coherent (s : State) : Prop :=
  (isModelTrained s = true ↔ is_Some (model s))
  ∧ (predictions s ≠ [] → isModelTrained s = true).

End View.

(* ===================================================================== *)
(** ** Vocabulary of the statements *)
(* ===================================================================== *)

(** A file's text from its lines. *)
Fixpoint unlines (ls : list string) : string :=
  match ls with
  | [] => EmptyString
  | [l] => l
  | l :: ls' => l +:+ String newline (unlines ls')
  end.

(** Sample inputs. *)
Module Samples.

Definition header : string := "date,product,quantity".

Definition sample_rows : string :=
  unlines [header; "2024-13"; "2024-01, Widget ,100";
           ""; "2024-02,42,10"; "2024-02,Gadget,7.5,extra"; "x,y,z"].

Definition infinite_rows : string :=
  unlines [header; "2024-01,Widget,Infinity"; "2024-02,Widget,1e999";
           "2024-03,Widget,-Infinity"].

(** A product field with a double quote between its letters. *)
Definition inner_quote_row : string :=
  "2024-01,Wid" +:+ String quote "get,100".

(** A product field of a space, two double quotes and a space. *)
Definition blank_product_row : string :=
  "2024-01, " +:+ String quote (String quote " ,5").

(** A file one of whose products is named as the accessor of
    [Object.prototype] is. *)
Definition proto_rows : string :=
  unlines [header; "2024-01,__proto__,5"; "2024-02,Widget,7"].

Definition proto_observations : list Entry :=
  [mkEntry "2024-01-01" "__proto__" (Fin 5);
   mkEntry "2024-02-01" "Widget" (Fin 7)].

(** The rows of the end-to-end scenario, as parsed. *)
Definition three_observations : list Entry :=
  [mkEntry "2024-01-01" "Widget" (Fin 100);
   mkEntry "2024-02-01" "Widget" (Fin 120);
   mkEntry "2024-01-01" "Gadget" (Fin 50)].

(** The table of the scenario. *)
Definition scenario_table : Encoder.Processed :=
  match Encoder.dataProcessing_try three_observations with
  | Returned p => p
  | Threw _ => Encoder.mkProcessed [] [] ∅ [] []
  end.

(** The component's state after the scenario's file is loaded. *)
Definition scenario_store : Component.State :=
  Component.mkState [] three_observations None EmptyString "all" false.

(** The state when the only row is of December 2024. *)
Definition december_store : Component.State :=
  Component.mkState [] [mkEntry "2024-12-01" "Widget" (Fin 100)] None
    EmptyString "all" false.

(** The state after a file whose rows are of 2024-12 and of 2024-13. *)
Definition month_13_store : Component.State :=
  Component.mkState [] [mkEntry "2024-12-01" "Widget" (Fin 100);
                        mkEntry "2024-13-01" "Widget" (Fin 10)] None
    EmptyString "all" false.

(** Five hours west of UTC, in milliseconds. *)
Definition UTC_minus_5 : Z := -18000000.

Definition NaN_model : Component.Model := λ _, NaN.

(** A model with a finite output on the rows that hold a product code and
    NaN on every other row. *)
Definition picky_model : Component.Model :=
  λ row, match snd row with Encoder.Num _ => Fin (1 # 3) | _ => NaN end.
Definition third_model : Component.Model := λ _, Fin (1 # 3).

(** A collation for the examples: the order of the code units. *)
Definition code_unit_order (a b : string) : Z :=
  match String.compare a b with Lt => -1 | Eq => 0 | Gt => 1 end.

(** A trained state with predictions of two products, the later month
    first. *)
Definition chart_store : Component.State :=
  Component.mkState
    [mkEntry "2025-02" "Widget" (Fin 3); mkEntry "2025-01" "Widget" (Fin 1);
     mkEntry "2025-01" "Gadget" (Fin 2)]
    three_observations (Some third_model) EmptyString "all" true.

End Samples.

Module Csv.

(** The characters of a month or of a number: digits and the hyphen. *)
Definition plain (c : ascii) : bool := is_digit c || Ascii.eqb c "-".

(** A data row for the month [ym], the product [p] and the whole quantity
    [n] written on [width] digits. *)
Definition row (ym p : string) (width : nat) (n : Z) : string :=
  ym +:+ String comma (p +:+ String comma (JsDate.pad width n)).

(** The observation such a row stands for. *)
Definition observation (ym p : string) (n : Z) : Entry :=
  mkEntry (ym +:+ "-01") p (Fin (inject_Z n)).

(** What can be written that way: a month [YYYY-MM]; a product name
    without comma, double quote or line feed, with no white space at its
    ends, that does not read as a number; a quantity that fits the
    width and is at most 2^53, so that it is a binary64 number and
    [parseFloat] returns it as it is written. *)
Definition writable (width : nat) (r : string * string * Z) : Prop :=
  let '(ym, p, n) := r in
  matches_year_month ym = true
  ∧ trim p = p ∧ contains comma p = false ∧ contains quote p = false
  ∧ contains newline p = false ∧ isNaN_string p = true
  ∧ 0 ≤ n < 10 ^ Z.of_nat width ∧ n ≤ 2 ^ 53.

End Csv.

Module Calendar.
Import JsDate.

(** The month [i] months after month [m] (1 to 12) of year [y]. *)
Definition months_after (y m i : Z) : Z * Z :=
  let k := 12 * y + (m - 1) + i in (k / 12, k mod 12 + 1).

(** [YYYY-MM] *)
Definition year_month (ym : Z * Z) : string :=
  pad 4 (fst ym) +:+ "-" +:+ pad 2 (snd ym).

(** The number that the two month digits of a [YYYY-MM] string
    spell. *)
Definition month_number (ym : string) : Z :=
  match ym with
  | String _ (String _ (String _ (String _ (String _
      (String m1 (String m2 _)))))) => digits_value [m1; m2]
  | _ => 0
  end.

(** The six months that follow month [m] of year [y], as [YYYY-MM]. *)
Definition next_six_months (y m : Z) : list string :=
  map (λ i, year_month (months_after y m i)) Component.offsets.

End Calendar.

(* ===================================================================== *)
(** ** Facts about the string built-ins *)
(* ===================================================================== *)

Module JsStringFacts.

Lemma all_chars_rev_onto p s acc :
  all_chars p (rev_onto s acc) = all_chars p s && all_chars p acc.
Proof.
  revert acc; induction s as [|c s IH]; intros acc; simpl; [done|].
  rewrite IH; simpl. destruct (p c), (all_chars p s); simpl; auto.
Qed.

Lemma all_chars_rev p s : all_chars p (rev s) = all_chars p s.
Proof. unfold rev. rewrite all_chars_rev_onto. simpl. apply andb_true_r. Qed.

Lemma rev_onto_empty s acc : rev_onto s acc = EmptyString → s = EmptyString.
Proof.
  revert acc; induction s as [|c s IH]; intros acc H; [done|].
  simpl in H. pose proof (IH _ H) as ->. simpl in H. discriminate H.
Qed.

Lemma rev_empty s : rev s = EmptyString → s = EmptyString.
Proof. apply rev_onto_empty. Qed.

Lemma trimStart_empty s :
  trimStart s = EmptyString ↔ all_chars is_space s = true.
Proof.
  induction s as [|c s IH]; simpl; [done|].
  destruct (is_space c); simpl; [exact IH|]. split; discriminate.
Qed.

Lemma all_chars_trimStart p s :
  all_chars p s = true → all_chars p (trimStart s) = true.
Proof.
  induction s as [|c s IH]; simpl; [done|].
  destruct (is_space c); simpl; [|done].
  intros [_ H]%andb_true_iff. auto.
Qed.

Lemma all_chars_trim p s : all_chars p s = true → all_chars p (trim s) = true.
Proof.
  intros H. unfold trim, trimEnd.
  rewrite all_chars_rev. apply all_chars_trimStart.
  rewrite all_chars_rev. by apply all_chars_trimStart.
Qed.

Lemma all_space_trimStart s :
  all_chars is_space (trimStart s) = true → all_chars is_space s = true.
Proof.
  induction s as [|c s IH]; simpl; [done|].
  destruct (is_space c) eqn:E; simpl; [exact IH|].
  by rewrite E.
Qed.

(** A string trims to nothing exactly when it is all white space. *)
Lemma trim_empty s : trim s = EmptyString ↔ all_chars is_space s = true.
Proof.
  unfold trim, trimEnd. split.
  - intros H%rev_empty. apply trimStart_empty in H.
    rewrite all_chars_rev in H. by apply all_space_trimStart.
  - intros H. apply trimStart_empty in H. by rewrite H.
Qed.

Lemma remove_quotes_no_quote s : contains quote (remove_quotes s) = false.
Proof.
  induction s as [|c s IH]; simpl; [done|].
  destruct (Ascii.eqb c quote) eqn:E; simpl; [done|]. by rewrite E.
Qed.

Lemma remove_quotes_id s : contains quote s = false → remove_quotes s = s.
Proof.
  induction s as [|c s IH]; simpl; [done|].
  destruct (Ascii.eqb c quote); simpl; [done|]. intros H. by rewrite IH.
Qed.

Lemma remove_quotes_all_space s :
  all_chars (λ c, is_space c || Ascii.eqb c quote) s = true →
  all_chars is_space (remove_quotes s) = true.
Proof.
  induction s as [|c s IH]; simpl; [done|].
  intros [Hc Hs]%andb_true_iff.
  destruct (Ascii.eqb c quote); simpl; [auto|].
  rewrite orb_false_r in Hc. rewrite Hc. simpl. auto.
Qed.

Lemma split_no_sep sep s : contains sep s = false → split sep s = [s].
Proof.
  induction s as [|c s IH]; simpl; [done|].
  destruct (Ascii.eqb c sep); simpl; [done|].
  intros H. by rewrite IH.
Qed.

Lemma split_nonempty sep s : split sep s ≠ [].
Proof.
  destruct s as [|c s]; simpl; [done|].
  destruct (Ascii.eqb c sep); [done|]. by destruct (split sep s).
Qed.

Lemma all_space_no_comma s :
  all_chars is_space s = true → contains comma s = false.
Proof.
  induction s as [|c s IH]; simpl; [done|].
  intros [Hc Hs]%andb_true_iff. rewrite (IH Hs), orb_false_r.
  destruct (Ascii.eqb_spec c comma) as [->|]; [|done].
  vm_compute in Hc. discriminate Hc.
Qed.

End JsStringFacts.

(* ===================================================================== *)
(** ** The parser *)
(* ===================================================================== *)

Module ParserFacts.
Import Parser JsStringFacts Samples.

(** [parseFloat(undefined)] reads the string [undefined]. *)
Lemma parseFloat_undefined : parseFloat "undefined" = NaN.
Proof. reflexivity. Qed.

(** A blank line has a single field, the empty one. *)
Lemma blank_line_not_well_formed line :
  trim line = EmptyString → spec_well_formed line = false.
Proof.
  intros H. apply trim_empty in H.
  unfold spec_well_formed, fields.
  by rewrite (split_no_sep _ _ (all_space_no_comma _ H)).
Qed.

Lemma well_formed_observation row :
  spec_well_formed row = true → is_Some (spec_observation row).
Proof.
  unfold spec_well_formed, spec_observation.
  destruct (fields row) as [|d [|p [|q rest]]]; try discriminate. eauto.
Qed.

Local Abbreviation kept rows :=
  (omap spec_observation (filter (λ row, spec_well_formed row = true) rows)).

(** One turn of the loop pushes the row's observation when the row is
    well-formed and nothing otherwise. *)
Lemma loop_body_kept parsedData line :
  loop_body parsedData line = parsedData ++ kept [line].
Proof.
  unfold loop_body.
  destruct (String.eqb_spec (trim line) EmptyString) as [Hb|_].
  { rewrite filter_cons_False, filter_nil; simpl; [by rewrite app_nil_r|].
    by rewrite (blank_line_not_well_formed _ Hb). }
  rewrite filter_cons, filter_nil.
  unfold spec_well_formed, spec_observation.
  destruct (fields line) as [|d [|p [|q rest]]] eqn:E;
    try (case_decide; [discriminate|simpl; by rewrite app_nil_r]).
  destruct (matches_year_month d), (isNaN (parseFloat q)), (isNaN_string p);
    simpl; try case_decide; try discriminate; try done; simpl;
    by rewrite ?E, ?app_nil_r.
Qed.

Lemma loop_kept rows parsedData :
  fold_left loop_body rows parsedData = parsedData ++ kept rows.
Proof.
  revert parsedData; induction rows as [|row rows IH]; intros parsedData; simpl.
  - by rewrite app_nil_r.
  - rewrite IH, loop_body_kept, <- app_assoc. f_equal.
    change (row :: rows) with ([row] ++ rows).
    by rewrite filter_app, omap_app.
Qed.

(** The loop computes the specification's list. *)
Lemma parsedData_of_spec text : parsedData_of text = spec_parse text.
Proof. unfold parsedData_of, spec_parse. by rewrite loop_kept. Qed.

Lemma elem_of_parsedData text o :
  o ∈ parsedData_of text ↔
  ∃ row, row ∈ dataLines text ∧ spec_well_formed row = true
         ∧ spec_observation row = Some o.
Proof.
  rewrite parsedData_of_spec. unfold spec_parse.
  rewrite list_elem_of_omap. split.
  - intros (row & [Hwf Hin]%list_elem_of_filter & Ho). eauto.
  - intros (row & Hin & Hwf & Ho). exists row. split; [|done].
    apply list_elem_of_filter. done.
Qed.

Lemma parsedData_nil text :
  parsedData_of text = [] ↔
  ∀ row, row ∈ dataLines text → spec_well_formed row = false.
Proof.
  split.
  - intros Hnil row Hin. destruct (spec_well_formed row) eqn:Hwf; [|done].
    destruct (well_formed_observation _ Hwf) as [o Ho].
    assert (o ∈ parsedData_of text) as Hel
      by (apply elem_of_parsedData; eauto).
    rewrite Hnil in Hel. by apply elem_of_nil in Hel.
  - intros Hall. destruct (parsedData_of text) as [|o os] eqn:E; [done|].
    assert (o ∈ parsedData_of text) as Hel by (rewrite E; left).
    apply elem_of_parsedData in Hel as (row & Hin & Hwf & _).
    rewrite (Hall _ Hin) in Hwf. discriminate.
Qed.

Lemma parse_cases text :
  parse text = match parsedData_of text with
               | [] => Threw no_valid_data
               | _ => Returned (parsedData_of text)
               end.
Proof. unfold parse. by destruct (parsedData_of text). Qed.

(** C2.  When at least one data row is well-formed (date field matching
    YYYY-MM, quantity field parsing as a number, product field not
    numeric), [parse] returns exactly the well-formed rows, in their
    order, each with [-01] appended to its date, whatever rows are
    malformed around them. *)
Theorem parse_returns_well_formed_rows (text : string) :
  (∃ row, row ∈ dataLines text ∧ spec_well_formed row = true) →
  parse text = Returned (spec_parse text).
Proof.
  intros (row & Hin & Hwf).
  rewrite parse_cases, <- parsedData_of_spec.
  destruct (parsedData_of text) eqn:E; [|done].
  rewrite (proj1 (parsedData_nil text) E _ Hin) in Hwf. discriminate.
Qed.

Lemma parse_returns_well_formed_rows_witness :
  parse sample_rows
  = Returned [mkEntry "2024-01-01" "Widget" (Fin 100);
              mkEntry "2024-02-01" "Gadget" (Fin 7.5)].
Proof.
  refine (eq_trans (parse_returns_well_formed_rows sample_rows _) _).
  - exists "2024-01, Widget ,100"%string. split; [|reflexivity].
    apply list_elem_of_In. vm_compute. tauto.
  - reflexivity.
Defined.

Lemma no_newline_no_dataLines text :
  contains newline text = false → dataLines text = [].
Proof. intros H. unfold dataLines. by rewrite split_no_sep. Qed.

(** C3.  [parse] throws exactly when no observation survives the row
    filter, that is when every data row is malformed; a text that is only
    a header throws; and what the handler stores on success is the kept
    rows and a fixed message, with no word on the rows that were
    dropped. *)
Theorem parse_throws_iff_nothing_survives (text : string) :
  ((∃ message, parse text = Threw message) ↔ parsedData_of text = [])
  ∧ (parsedData_of text = [] ↔
     ∀ row, row ∈ dataLines text → spec_well_formed row = false)
  ∧ (contains newline text = false → parse text = Threw no_valid_data)
  ∧ (∀ store, Component.onload text store =
       match parsedData_of text with
       | [] => Component.setStatus ("Error parsing file: " +:+ no_valid_data) store
       | kept =>
           Component.setStatus Component.data_loaded
             (Component.setSalesData kept store)
       end).
Proof.
  split; [|split; [apply parsedData_nil|split]].
  - rewrite parse_cases. destruct (parsedData_of text); split; try done.
    + eauto.
    + intros [? ?]. discriminate.
  - intros H. rewrite parse_cases. unfold parsedData_of.
    by rewrite (no_newline_no_dataLines _ H).
  - intros store. unfold Component.onload. rewrite parse_cases.
    by destruct (parsedData_of text).
Qed.

Lemma parse_throws_iff_nothing_survives_witness :
  parse Samples.header = Threw no_valid_data.
Proof.
  apply (proj1 (proj2 (proj2 (parse_throws_iff_nothing_survives Samples.header)))).
  reflexivity.
Defined.

(** C4, as found false: rows whose quantity field reads [Infinity],
    [-Infinity] or overflows the number range are kept, with an infinite
    quantity. *)
Lemma parse_keeps_infinite_quantities :
  parse infinite_rows
  = Returned [mkEntry "2024-01-01" "Widget" (Inf false);
              mkEntry "2024-02-01" "Widget" (Inf false);
              mkEntry "2024-03-01" "Widget" (Inf true)]
  ∧ ¬ (∀ o, o ∈ parsedData_of infinite_rows → isFinite (quantity o) = true).
Proof.
  split; [by vm_compute|].
  intros H. specialize (H (mkEntry "2024-01-01" "Widget" (Inf false))).
  assert (parsedData_of infinite_rows
          = [mkEntry "2024-01-01" "Widget" (Inf false);
             mkEntry "2024-02-01" "Widget" (Inf false);
             mkEntry "2024-03-01" "Widget" (Inf true)]) as E by (by vm_compute).
  rewrite E in H. discriminate H. left.
Qed.

Lemma NaN_quantity_row_dropped parsedData line d p q rest :
  fields line = d :: p :: q :: rest →
  isNaN (parseFloat q) = true →
  loop_body parsedData line = parsedData.
Proof.
  intros Hf Hq. unfold loop_body. rewrite Hf, Hq.
  destruct (String.eqb _ _), (matches_year_month d); done.
Qed.

(** C4, amended.  A row is dropped whenever [parseFloat] of its quantity
    field is NaN, and every observation that [parse] returns has a
    quantity that is not NaN; infinite quantities are kept. *)
Theorem parse_drops_NaN_quantities (text : string) (obs : list Entry) :
  parse text = Returned obs →
  (∀ o, o ∈ obs → isNaN (quantity o) = false)
  ∧ (∀ row d p q rest, row ∈ dataLines text →
       fields row = d :: p :: q :: rest →
       isNaN (parseFloat q) = true →
       ∀ parsedData, loop_body parsedData row = parsedData).
Proof.
  intros Hp. split.
  - intros o Ho. rewrite parse_cases in Hp.
    assert (obs = parsedData_of text) as ->
      by (destruct (parsedData_of text); by inversion Hp).
    apply elem_of_parsedData in Ho as (row & _ & Hwf & Hobs).
    unfold spec_well_formed, spec_observation in *.
    destruct (fields row) as [|d [|p [|q rest]]]; try discriminate.
    inversion Hobs; subst; simpl.
    destruct (isNaN (parseFloat q)); [|done].
    by rewrite andb_false_r in Hwf.
  - intros row d p q rest _ Hf Hq parsedData.
    by eapply NaN_quantity_row_dropped.
Qed.

Lemma parse_drops_NaN_quantities_witness :
  parse Samples.sample_rows
  = Returned [mkEntry "2024-01-01" "Widget" (Fin 100);
              mkEntry "2024-02-01" "Gadget" (Fin 7.5)]
  ∧ isNaN (quantity (mkEntry "2024-02-01" "Gadget" (Fin 7.5))) = false.
Proof.
  split; [reflexivity|].
  apply (proj1 (parse_drops_NaN_quantities Samples.sample_rows
                  [mkEntry "2024-01-01" "Widget" (Fin 100);
                   mkEntry "2024-02-01" "Gadget" (Fin 7.5)] eq_refl)).
  right. left.
Defined.

(** C5, as found false: a double quote inside a field value is removed
    like any other. *)
Lemma interior_quote_removed :
  split comma inner_quote_row
  = ["2024-01"; "Wid" +:+ String quote "get"; "100"]
  ∧ fields inner_quote_row = ["2024-01"; "Widget"; "100"]
  ∧ parse (unlines [Samples.header; inner_quote_row])
    = Returned [mkEntry "2024-01-01" "Widget" (Fin 100)].
Proof. by vm_compute. Qed.

Lemma contains_all_chars c s :
  contains c s = false ↔ all_chars (λ x, negb (Ascii.eqb x c)) s = true.
Proof.
  induction s as [|x s IH]; simpl; [done|].
  destruct (Ascii.eqb x c); simpl; [split; discriminate|exact IH].
Qed.

(** C5, amended.  A row is split on commas; each item is trimmed of
    leading and trailing white space and then loses every double quote it
    holds, surrounding or interior; an item without quotes is only
    trimmed.  No field, and no product of a returned observation, holds a
    double quote. *)
Theorem fields_lose_every_quote (line : string) :
  fields line = map (λ item, remove_quotes (trim item)) (split comma line)
  ∧ Forall (λ f, contains quote f = false) (fields line)
  ∧ Forall (λ item, contains quote item = false →
                    remove_quotes (trim item) = trim item) (split comma line)
  ∧ (∀ text o, o ∈ parsedData_of text → contains quote (product o) = false).
Proof.
  split; [done|]. split; [|split].
  - unfold fields. apply Forall_fmap, Forall_forall. intros item _. simpl.
    apply remove_quotes_no_quote.
  - apply Forall_forall. intros item _ H. apply remove_quotes_id.
    apply contains_all_chars, all_chars_trim. by apply contains_all_chars.
  - intros text o (row & _ & _ & Hobs)%elem_of_parsedData.
    unfold spec_observation, fields in Hobs.
    destruct (split comma row) as [|rd [|rp [|rq rrest]]]; try discriminate.
    simpl in Hobs. inversion Hobs; subst; simpl.
    apply remove_quotes_no_quote.
Qed.

Lemma blank_item_field item :
  all_chars (λ c, is_space c || Ascii.eqb c quote) item = true →
  trim (remove_quotes (trim item)) = EmptyString.
Proof.
  intros H. apply trim_empty, remove_quotes_all_space.
  by apply all_chars_trim.
Qed.

Lemma blank_is_numeric p : trim p = EmptyString → isNaN_string p = false.
Proof. intros H. unfold isNaN_string, string_is_numeric. by rewrite H. Qed.

(** C10.  A row whose product field is empty, or holds only white space
    and double quotes, is dropped: the field left after trimming and quote
    removal converts to the number 0, so the numeric-product guard skips the
    row (a row without a quantity field is skipped before that).  No
    returned observation has the empty string as its product. *)
Theorem blank_product_row_dropped
    (parsedData : list Entry) (line rd rp : string) (rrest : list string) :
  split comma line = rd :: rp :: rrest →
  all_chars (λ c, is_space c || Ascii.eqb c quote) rp = true →
  loop_body parsedData line = parsedData
  ∧ isNaN_string (remove_quotes (trim rp)) = false
  ∧ (∀ text o, o ∈ parsedData_of text → product o ≠ EmptyString).
Proof.
  intros Hs Hb.
  pose proof (blank_is_numeric _ (blank_item_field _ Hb)) as Hnum.
  split; [|split; [done|]].
  - unfold loop_body, fields. rewrite Hs.
    destruct (String.eqb (trim line) EmptyString); [done|].
    destruct rrest as [|rq rrest]; [done|].
    cbn [map]. rewrite Hnum. cbn [negb].
    destruct (matches_year_month _); cbn [negb]; [|done].
    by destruct (isNaN _).
  - intros text o (row & _ & Hwf & Hobs)%elem_of_parsedData Hempty.
    unfold spec_well_formed, spec_observation in *.
    destruct (fields row) as [|d [|p [|q rest]]]; try discriminate.
    inversion Hobs; subst; simpl in *. subst p.
    rewrite andb_false_r in Hwf. discriminate.
Qed.

Lemma blank_product_row_dropped_witness :
  loop_body [] Samples.blank_product_row = []
  ∧ isNaN_string EmptyString = false.
Proof.
  split.
  - apply (blank_product_row_dropped [] Samples.blank_product_row
             "2024-01" (String " " (String quote (String quote " "))) ["5"]);
      reflexivity.
  - reflexivity.
Defined.

End ParserFacts.

(* ===================================================================== *)
(** ** The encoding *)
(* ===================================================================== *)

Module EncoderFacts.
Import Encoder.

(** *** [Set]: first occurrences, once each *)

Lemma Set_add_all_elem seen xs x :
  x ∈ Set_add_all seen xs ↔ x ∈ seen ∨ x ∈ xs.
Proof.
  revert seen; induction xs as [|y xs IH]; intros seen; simpl.
  - rewrite elem_of_nil. tauto.
  - rewrite IH, elem_of_cons. case_bool_decide as Hy.
    + split; [tauto|]. intros [?|[->|?]]; tauto.
    + rewrite elem_of_app, list_elem_of_singleton. tauto.
Qed.

Lemma Set_add_all_NoDup seen xs : NoDup seen → NoDup (Set_add_all seen xs).
Proof.
  revert seen; induction xs as [|y xs IH]; intros seen Hnd; simpl; [done|].
  apply IH. case_bool_decide as Hy; [done|].
  apply NoDup_app. split; [done|]. split; [|apply NoDup_singleton].
  intros z Hz ->%list_elem_of_singleton. done.
Qed.

Lemma Set_add_all_extends seen xs : ∃ k, Set_add_all seen xs = seen ++ k.
Proof.
  revert seen; induction xs as [|y xs IH]; intros seen; simpl.
  - exists []. by rewrite app_nil_r.
  - case_bool_decide; [apply IH|].
    destruct (IH (seen ++ [y])) as [k ->]. exists ([y] ++ k).
    by rewrite app_assoc.
Qed.

Lemma Set_of_elem xs x : x ∈ Set_of xs ↔ x ∈ xs.
Proof. unfold Set_of. rewrite Set_add_all_elem, elem_of_nil. tauto. Qed.

Lemma Set_of_NoDup xs : NoDup (Set_of xs).
Proof. apply Set_add_all_NoDup, NoDup_nil_2. Qed.

Lemma Set_of_head x xs : head (Set_of (x :: xs)) = Some x.
Proof.
  unfold Set_of. simpl.
  destruct (Set_add_all_extends [x] xs) as [k ->]. done.
Qed.

(** The array has as many entries as there are distinct values. *)
Lemma Set_of_length xs :
  length (Set_of xs) = size (list_to_set xs : gset string).
Proof.
  rewrite <- (size_list_to_set (C := gset string) (Set_of xs))
    by apply Set_of_NoDup.
  f_equal. apply set_eq. intros x.
  by rewrite !elem_of_list_to_set, Set_of_elem.
Qed.

(** *** [sort] *)

Lemma sort_insert_perm x l : sort_insert x l ≡ₚ x :: l.
Proof.
  induction l as [|y l IH]; simpl; [done|].
  destruct (String.leb x y); [done|].
  rewrite IH. apply Permutation_swap.
Qed.

Lemma Array_sort_perm l : Array_sort l ≡ₚ l.
Proof.
  induction l as [|x l IH]; simpl; [done|].
  by rewrite sort_insert_perm, IH.
Qed.

Lemma Array_sort_elem l x : x ∈ Array_sort l ↔ x ∈ l.
Proof. by rewrite Array_sort_perm. Qed.

Lemma Array_sort_length l : length (Array_sort l) = length l.
Proof. by rewrite Array_sort_perm. Qed.

Lemma leb_flip x y : String.leb x y = false → String.leb y x = true.
Proof. destruct (String.leb_total x y) as [H|H]; congruence. Qed.

Lemma sort_insert_ascending x l : ascending l → ascending (sort_insert x l).
Proof.
  unfold ascending. induction l as [|y l IH]; simpl; intros Hs.
  - by repeat constructor.
  - destruct (String.leb x y) eqn:E.
    + constructor; [done|]. by constructor.
    + inversion Hs as [|? ? Hl Hhd]; subst.
      constructor; [by apply IH|].
      destruct l as [|z l]; simpl.
      * constructor. by apply leb_flip.
      * destruct (String.leb x z); constructor;
          [by apply leb_flip|by inversion Hhd].
Qed.

Lemma Array_sort_ascending l : ascending (Array_sort l).
Proof.
  induction l as [|x l IH]; simpl; [constructor|].
  by apply sort_insert_ascending.
Qed.

(** *** [indexOf] *)

Lemma indexOf_from_bounds i x l :
  x ∈ l → i ≤ indexOf_from i x l < i + Z.of_nat (length l).
Proof.
  revert i; induction l as [|y l IH]; intros i Hin; simpl.
  - by apply elem_of_nil in Hin.
  - destruct (String.eqb_spec y x) as [->|Hne]; [lia|].
    apply elem_of_cons in Hin as [->|Hin]; [done|].
    specialize (IH (i + 1) Hin). lia.
Qed.

Lemma indexOf_bounds l x : x ∈ l → 0 ≤ indexOf l x < Z.of_nat (length l).
Proof. intros H. pose proof (indexOf_from_bounds 0 x l H). unfold indexOf. lia. Qed.

(** *** The [encoder] object after [forEach] *)

Lemma set_property_other k v (enc : gmap string jsnum) k' :
  k' ≠ k → set_property k v enc !! k' = enc !! k'.
Proof.
  intros Hne. unfold set_property.
  destruct (String.eqb k proto_key); [done|]. by rewrite lookup_insert_ne.
Qed.

Lemma set_property_same k v (enc : gmap string jsnum) :
  k ≠ proto_key → set_property k v enc !! k = Some v.
Proof.
  intros Hne%String.eqb_neq. unfold set_property. rewrite Hne.
  apply lookup_insert_eq.
Qed.

Lemma set_property_proto k v (enc : gmap string jsnum) :
  enc !! proto_key = None → set_property k v enc !! proto_key = None.
Proof.
  intros Hnone. unfold set_property.
  destruct (String.eqb_spec k proto_key) as [->|Hne]; [done|].
  by rewrite lookup_insert_ne.
Qed.

Lemma forEach_encode_other count i ps (enc : gmap string jsnum) k :
  k ∉ ps → forEach_encode count i ps enc !! k = enc !! k.
Proof.
  revert i enc; induction ps as [|p ps IH]; intros i enc Hk; simpl; [done|].
  apply not_elem_of_cons in Hk as [Hne Hk].
  rewrite IH by done. by apply set_property_other.
Qed.

Lemma forEach_encode_at count i ps (enc : gmap string jsnum) j k :
  NoDup ps → ps !! j = Some k → k ≠ proto_key →
  forEach_encode count i ps enc !! k
  = Some (js_div (of_Z (i + Z.of_nat j)) count).
Proof.
  revert i enc j; induction ps as [|p ps IH]; intros i enc j Hnd Hj Hk; [done|].
  apply NoDup_cons in Hnd as [Hp Hnd]. simpl. destruct j as [|j]; simpl in Hj.
  - inversion Hj; subst. rewrite forEach_encode_other by done.
    rewrite set_property_same by done.
    by replace (i + Z.of_nat 0) with i by lia.
  - rewrite (IH _ _ j) by done.
    by replace (i + 1 + Z.of_nat j) with (i + Z.of_nat (S j)) by lia.
Qed.

(** No assignment of the loop gives the object an own [__proto__]. *)
Lemma forEach_encode_proto count i ps (enc : gmap string jsnum) :
  enc !! proto_key = None →
  forEach_encode count i ps enc !! proto_key = None.
Proof.
  revert i enc; induction ps as [|p ps IH]; intros i enc Hnone; simpl; [done|].
  by apply IH, set_property_proto.
Qed.

Lemma get_property_own (enc : gmap string jsnum) k v :
  enc !! k = Some v → get_property enc k = Num v.
Proof. intros H. unfold get_property. by rewrite H. Qed.

Lemma get_property_proto (enc : gmap string jsnum) :
  enc !! proto_key = None → get_property enc proto_key = ObjectPrototype.
Proof. intros H. unfold get_property. by rewrite H. Qed.

Lemma get_property_Num (enc : gmap string jsnum) k v :
  get_property enc k = Num v ↔ enc !! k = Some v.
Proof.
  unfold get_property. destruct (enc !! k) as [w|].
  - split; intros H; inversion H; done.
  - split; [|done]. destruct (String.eqb k proto_key); [done|].
    by case_bool_decide.
Qed.

End EncoderFacts.

(* ===================================================================== *)
(** ** Quotients of indices and lengths *)
(* ===================================================================== *)

Module JsNumberFacts.

Local Open Scope Q_scope.

Lemma one_lt_double_limit : 1 < double_limit.
Proof. by vm_compute. Qed.

(** A value of the unit interval is far from the overflow threshold. *)
Lemma of_Q_unit q : 0 <= q <= 1 → of_Q q = Fin q.
Proof.
  intros [H0 H1]. unfold of_Q.
  destruct (Qle_bool double_limit (Qabs q)) eqn:E; [|done].
  apply Qle_bool_iff in E. rewrite Qabs_pos in E by done.
  destruct (Qlt_irrefl 1).
  eapply Qlt_le_trans; [exact one_lt_double_limit|].
  eapply Qle_trans; [exact E|exact H1].
Qed.

Lemma inject_Z_le a b : (a <= b)%Z → inject_Z a <= inject_Z b.
Proof. by rewrite <- Zle_Qle. Qed.

Lemma inject_Z_lt a b : (a < b)%Z → inject_Z a < inject_Z b.
Proof. by rewrite <- Zlt_Qlt. Qed.

Lemma inject_Z_pos b : (0 < b)%Z → 0 < inject_Z b.
Proof. apply (inject_Z_lt 0 b). Qed.

Lemma Qeq_bool_inject_Z_pos b : (0 < b)%Z → Qeq_bool (inject_Z b) 0 = false.
Proof.
  intros H. destruct (Qeq_bool (inject_Z b) 0) eqn:E; [|done].
  apply Qeq_bool_iff in E. pose proof (inject_Z_pos b H) as P.
  rewrite E in P. by apply Qlt_irrefl in P.
Qed.

Lemma Qdiv_unit_interval x y : 0 <= x <= y → 0 < y → 0 <= x / y <= 1.
Proof.
  intros [Hx Hxy] Hy. split.
  - apply Qle_shift_div_l; [done|]. lra.
  - apply Qle_shift_div_r; [done|]. lra.
Qed.

Lemma Qdiv_unit a b : (0 <= a <= b)%Z → (0 < b)%Z →
  0 <= inject_Z a / inject_Z b <= 1.
Proof.
  intros [Ha Hab] Hb. apply Qdiv_unit_interval.
  - split; [apply (inject_Z_le 0 a Ha)|by apply inject_Z_le].
  - by apply inject_Z_pos.
Qed.

(** The quotient of an index by a length that bounds it is finite and
    exact. *)
Lemma js_div_of_Z a b : (0 <= a <= b)%Z → (0 < b)%Z →
  js_div (of_Z a) (of_Z b) = Fin (inject_Z a / inject_Z b).
Proof.
  intros Hab Hb. unfold js_div, of_Z.
  rewrite Qeq_bool_inject_Z_pos by done.
  apply of_Q_unit. by apply Qdiv_unit.
Qed.

Lemma Qdiv_below_one x y z : 0 <= x → x <= z → x < y →
  0 <= x / y <= z / y ∧ x / y < 1.
Proof.
  intros Hx Hxz Hxy. assert (0 < y) as Hy by lra.
  split; [split|].
  - apply Qle_shift_div_l; [done|]. lra.
  - unfold Qdiv. apply Qmult_le_compat_r; [done|].
    apply Qlt_le_weak, Qinv_lt_0_compat. done.
  - apply Qlt_shift_div_r; [done|]. lra.
Qed.

Lemma Qdiv_le_top a b : (0 <= a < b)%Z →
  0 <= inject_Z a / inject_Z b <= inject_Z (b - 1) / inject_Z b
  ∧ inject_Z a / inject_Z b < 1.
Proof.
  intros [Ha Hab]. apply Qdiv_below_one.
  - apply (inject_Z_le 0 a Ha).
  - apply inject_Z_le. lia.
  - by apply inject_Z_lt.
Qed.

End JsNumberFacts.

Module EncodingRange.
Import Encoder EncoderFacts JsNumberFacts.

Lemma dataProcessing_try_returns sd :
  sd ≠ [] →
  dataProcessing_try sd
  = let products := Set_of (map product sd) in
    let dates := Array_sort (Set_of (map date sd)) in
    let encoder := forEach_encode (length_of products) 0 products ∅ in
    Returned
      (mkProcessed
         (map (λ d, (js_div (of_Z (indexOf dates (date d))) (length_of dates),
                     get_property encoder (product d))) sd)
         (map (λ d, js_div (quantity d) (Fin 1000)) sd)
         encoder dates products).
Proof. destruct sd; done. Qed.

(** What a returned table is made of. *)
Lemma dataProcessing_try_inv sd p :
  dataProcessing_try sd = Returned p →
  sd ≠ []
  ∧ products p = Set_of (map product sd)
  ∧ dates p = Array_sort (Set_of (map date sd))
  ∧ encoder p = forEach_encode (length_of (products p)) 0 (products p) ∅
  ∧ inputs p
    = map (λ d, (js_div (of_Z (indexOf (dates p) (date d))) (length_of (dates p)),
                 get_property (encoder p) (product d))) sd.
Proof.
  intros Hp. assert (sd ≠ []) as Hne by (intros ->; discriminate).
  rewrite (dataProcessing_try_returns sd Hne) in Hp.
  inversion Hp; subst p; clear Hp. done.
Qed.

(** The table has one product per distinct product and one date per
    distinct month of the observations. *)
Lemma table_sizes sd p :
  dataProcessing_try sd = Returned p →
  length (products p) = size (list_to_set (map product sd) : gset string)
  ∧ length (dates p) = size (list_to_set (map date sd) : gset string).
Proof.
  intros (_ & -> & -> & _)%dataProcessing_try_inv.
  rewrite Array_sort_length. split; apply Set_of_length.
Qed.

Lemma observation_in_table sd p d :
  dataProcessing_try sd = Returned p → d ∈ sd →
  product d ∈ products p ∧ date d ∈ dates p.
Proof.
  intros (_ & -> & -> & _)%dataProcessing_try_inv Hd.
  rewrite Array_sort_elem, !Set_of_elem.
  split; by apply list_elem_of_fmap_2.
Qed.

(** The code of the product at index [j] of [products]. *)
Lemma encoder_lookup ps j k :
  NoDup ps → ps !! j = Some k → k ≠ proto_key →
  forEach_encode (length_of ps) 0 ps ∅ !! k
  = Some (Fin (inject_Z (Z.of_nat j) / inject_Z (Z.of_nat (length ps)))).
Proof.
  intros Hnd Hj Hk. rewrite (forEach_encode_at _ _ _ _ j k Hnd Hj Hk).
  apply lookup_lt_Some in Hj. unfold length_of. simpl (0 + _)%Z.
  f_equal. apply js_div_of_Z; lia.
Qed.

(** Every product of the table, unless it is named [__proto__], has a
    code, a rational of [0, (N-1)/N]. *)
Lemma product_code_range sd p k :
  dataProcessing_try sd = Returned p → k ∈ products p → k ≠ proto_key →
  let N := Z.of_nat (length (products p)) in
  ∃ pc, encoder p !! k = Some (Fin pc)
    ∧ (0 <= pc <= inject_Z (N - 1) / inject_Z N)%Q ∧ (pc < 1)%Q.
Proof.
  intros (_ & Hps & _ & -> & _)%dataProcessing_try_inv
         [j Hj]%list_elem_of_lookup_1 Hk N.
  assert (NoDup (products p)) as Hnd by (rewrite Hps; apply Set_of_NoDup).
  eexists. split; [by apply (encoder_lookup _ j k)|].
  apply lookup_lt_Some in Hj. apply Qdiv_le_top. lia.
Qed.

(** The encoder has no other own property, and none named [__proto__]. *)
Lemma encoder_domain sd p k v :
  dataProcessing_try sd = Returned p → encoder p !! k = Some v →
  k ∈ products p ∧ k ≠ proto_key.
Proof.
  intros (_ & _ & _ & -> & _)%dataProcessing_try_inv Hv. split.
  - destruct (decide (k ∈ products p)) as [|Hk]; [done|].
    rewrite forEach_encode_other in Hv by done. by rewrite lookup_empty in Hv.
  - intros ->. by rewrite forEach_encode_proto in Hv.
Qed.

(** Reading [__proto__] from the encoder of a table gives
    [Object.prototype], whether or not it is a product. *)
Lemma encoder_proto sd p :
  dataProcessing_try sd = Returned p →
  encoder p !! proto_key = None
  ∧ get_property (encoder p) proto_key = ObjectPrototype.
Proof.
  intros (_ & _ & _ & -> & _)%dataProcessing_try_inv.
  assert (forEach_encode (length_of (products p)) 0 (products p) ∅ !! proto_key
          = None) as H by by apply forEach_encode_proto.
  split; [done|]. by apply get_property_proto.
Qed.

(** Every date of the table has an index, and its quotient by the number
    of dates is a rational of [0, (M-1)/M]. *)
Lemma month_index_range (ds : list string) x :
  x ∈ ds →
  let M := Z.of_nat (length ds) in
  ∃ mi, js_div (of_Z (indexOf ds x)) (length_of ds) = Fin mi
    ∧ (0 <= mi <= inject_Z (M - 1) / inject_Z M)%Q ∧ (mi < 1)%Q.
Proof.
  intros Hx M. pose proof (indexOf_bounds ds x Hx) as Hidx.
  eexists. split; [unfold length_of; apply js_div_of_Z; lia|].
  by apply Qdiv_le_top.
Qed.

(** X25.  The range of the encoding, where the code has it.  In the
    table that [dataProcessing] returns for an observation list with N
    distinct products and M distinct months, every month index lies in
    [0, (M-1)/M], and the product code of every product not named
    [__proto__] (in the feature rows and in the encoder) lies in
    [0, (N-1)/N]; none reaches 1, and the code of the first-seen product,
    if it is not named [__proto__], is 0. *)
Theorem encoding_range (sd : list Entry) (p : Processed) :
  dataProcessing_try sd = Returned p →
  length (products p) = size (list_to_set (map product sd) : gset string)
  ∧ length (dates p) = size (list_to_set (map date sd) : gset string)
  ∧ let N := Z.of_nat (length (products p)) in
    let M := Z.of_nat (length (dates p)) in
    (∀ (i : nat) d, sd !! i = Some d →
       ∃ mi code, inputs p !! i = Some (Fin mi, code)
         ∧ (0 <= mi <= inject_Z (M - 1) / inject_Z M)%Q ∧ (mi < 1)%Q
         ∧ (product d ≠ proto_key →
              ∃ pc, code = Num (Fin pc)
                ∧ (0 <= pc <= inject_Z (N - 1) / inject_Z N)%Q
                ∧ (pc < 1)%Q))
    ∧ (∀ k v, encoder p !! k = Some v →
         ∃ pc, v = Fin pc
           ∧ (0 <= pc <= inject_Z (N - 1) / inject_Z N)%Q ∧ (pc < 1)%Q)
    ∧ (∀ d0, head sd = Some d0 → product d0 ≠ proto_key →
         ∃ pc, get_property (encoder p) (product d0) = Num (Fin pc)
               ∧ (pc == 0)%Q).
Proof.
  intros Hp.
  destruct (table_sizes sd p Hp) as [HN HM]. split; [done|]. split; [done|].
  intros N M. split; [|split].
  - destruct (dataProcessing_try_inv sd p Hp) as (_ & _ & _ & _ & ->).
    intros i d Hi. rewrite list_lookup_fmap, Hi. cbn [fmap option_fmap option_map].
    assert (d ∈ sd) as Hd by by eapply list_elem_of_lookup_2.
    destruct (observation_in_table sd p d Hp Hd) as [Hprod Hdate].
    destruct (month_index_range _ _ Hdate) as (mi & -> & Hmi).
    cbv zeta in Hmi. destruct Hmi as [Hmi Hmi1].
    eexists mi, _. split; [done|]. split; [done|]. split; [done|].
    intros Hk.
    destruct (product_code_range sd p _ Hp Hprod Hk) as (pc & Hpc & Hr & Hr1).
    exists pc. split; [by apply get_property_own|done].
  - intros k v Hv. destruct (encoder_domain sd p k v Hp Hv) as [Hk Hkp].
    destruct (product_code_range sd p k Hp Hk Hkp) as (pc & Hpc & Hrange).
    rewrite Hpc in Hv. inversion Hv; subst. eauto.
  - intros d0 Hd0 Hk. destruct sd as [|d sd']; [done|]. simpl in Hd0.
    inversion Hd0; subst d0.
    destruct (dataProcessing_try_inv _ p Hp) as (_ & Hps & _ & -> & _).
    assert (products p !! 0%nat = Some (product d)) as H0.
    { rewrite Hps. pose proof (Set_of_head (product d) (map product sd')) as Hh.
      simpl. by destruct (Set_of (product d :: map product sd')). }
    assert (NoDup (products p)) as Hnd by (rewrite Hps; apply Set_of_NoDup).
    eexists. split;
      [by apply get_property_own, (encoder_lookup _ 0 _ Hnd H0)|].
    simpl. unfold Qdiv. apply Qmult_0_l.
Qed.

Lemma encoding_range_witness :
  length (products Samples.scenario_table) = 2%nat
  ∧ length (dates Samples.scenario_table) = 2%nat.
Proof.
  destruct (encoding_range Samples.three_observations Samples.scenario_table
              eq_refl) as (HN & HM & _).
  split.
  - rewrite HN. by vm_compute.
  - rewrite HM. by vm_compute.
Defined.

(** C6, where the code departs from it.  A file with a product named
    [__proto__] is parsed like any other, and [__proto__] is the first of
    the two products that line 66 collects; but the assignment
    [encoder['__proto__'] = 0 / 2] of line 70 changes nothing: the encoder
    has no such own property, and the product code that line 74 reads for
    that observation is the object [Object.prototype], not the number 0 of
    the range [0, 1/2].  The other product has its code, 1/2.  These are
    the product codes of the feature rows in any table that
    [dataProcessing] returns for that file. *)
Theorem proto_product_gets_no_code :
  Parser.parse Samples.proto_rows = Returned Samples.proto_observations
  ∧ (let products := Set_of (map product Samples.proto_observations) in
     let encoder := forEach_encode (length_of products) 0 products ∅ in
     products = [proto_key; "Widget"%string]
     ∧ encoder !! proto_key = None
     ∧ encoder !! "Widget"%string = Some (Fin (1 # 2))
     ∧ map (λ d, get_property encoder (product d)) Samples.proto_observations
       = [ObjectPrototype; Num (Fin (1 # 2))])
  ∧ ∀ p, dataProcessing_try Samples.proto_observations = Returned p →
      products p = [proto_key; "Widget"%string]
      ∧ map snd (inputs p) = [ObjectPrototype; Num (Fin (1 # 2))].
Proof.
  split; [by vm_compute|]. split; [repeat split; by vm_compute|].
  intros p Hp. vm_compute in Hp. inversion Hp; subst p; clear Hp.
  split; by vm_compute.
Qed.

End EncodingRange.

(* ===================================================================== *)
(** ** Calendar arithmetic *)
(* ===================================================================== *)

Module JsDateFacts.
Import JsDate Calendar.

(** Linear arithmetic with quotients and remainders by constants. *)
Ltac div_lia := Z.div_mod_to_equations; lia.

(** The civil date of the first day of a month of the March-based year
    [y'] ([mp] counts the months from March). *)
Lemma civil_from_days_first y' mp :
  0 ≤ mp ≤ 11 →
  let era := y' / 400 in
  let yoe := y' - era * 400 in
  let doe := yoe * 365 + yoe / 4 - yoe / 100 + ((153 * mp + 2) / 5 + 1 - 1) in
  civil_from_days (era * 146097 + doe - 719468)
  = (y' + (if (if mp <? 10 then mp + 3 else mp - 9) <=? 2 then 1 else 0),
     (if mp <? 10 then mp + 3 else mp - 9), 1).
Proof.
  intros Hmp era yoe doe.
  assert (0 ≤ yoe < 400) as Hyoe
    by (unfold yoe, era; div_lia).
  set (doy := (153 * mp + 2) / 5 + 1 - 1) in *.
  assert (0 ≤ doy ≤ 337 ∧ (5 * doy + 2) / 153 = mp ∧ (153 * mp + 2) / 5 = doy)
    as (Hdoy & Hmp' & Hdoy') by (unfold doy; div_lia).
  assert (0 ≤ doe < 146097) as Hdoe
    by (unfold doe; div_lia).
  assert ((doe - doe / 1460 + doe / 36524 - doe / 146096) / 365 = yoe) as Hy
    by (unfold doe; div_lia).
  unfold civil_from_days. cbv zeta.
  replace (era * 146097 + doe - 719468 + 719468) with (doe + era * 146097) by lia.
  rewrite Z.div_add, (Z.div_small doe), Z.add_0_l by lia.
  replace (doe + era * 146097 - era * 146097) with doe by lia.
  rewrite Hy.
  replace (doe - (365 * yoe + yoe / 4 - yoe / 100)) with doy by (unfold doe; lia).
  rewrite Hmp', Hdoy'.
  replace (doy - doy + 1) with 1 by lia.
  f_equal. f_equal. unfold yoe. lia.
Qed.

(** The first day of a month, to its day number and back. *)
Lemma civil_from_days_from_civil y m :
  1 ≤ m ≤ 12 → civil_from_days (days_from_civil y m 1) = (y, m, 1).
Proof.
  intros Hm. unfold days_from_civil.
  destruct (Z.leb_spec m 2) as [Hle|Hgt]; destruct (Z.ltb_spec 2 m); try lia.
  - rewrite (civil_from_days_first (y - 1) (m + 9)) by lia.
    destruct (Z.ltb_spec (m + 9) 10); [lia|].
    replace (m + 9 - 9) with m by lia.
    destruct (Z.leb_spec m 2); [|lia]. f_equal. f_equal. lia.
  - rewrite (civil_from_days_first y (m - 3)) by lia.
    destruct (Z.ltb_spec (m - 3) 10); [|lia].
    replace (m - 3 + 3) with m by lia.
    destruct (Z.leb_spec m 2); [lia|]. f_equal. f_equal. lia.
Qed.

Lemma days_from_civil_bounds y m :
  -1 ≤ y ≤ 10001 → 1 ≤ m ≤ 12 →
  -1000000 ≤ days_from_civil y m 1 ≤ 4000000.
Proof.
  intros Hy Hm. unfold days_from_civil.
  destruct (m <=? 2), (2 <? m); div_lia.
Qed.

(** [MakeDay] on the first of a month [i] months on. *)
Lemma MakeDay_months_after y m i :
  1 ≤ m ≤ 12 →
  MakeDay y (m - 1 + i) 1
  = days_from_civil (fst (months_after y m i)) (snd (months_after y m i)) 1.
Proof.
  intros Hm. unfold MakeDay, months_after. simpl fst. simpl snd.
  replace (12 * y + (m - 1) + i) with (m - 1 + i + y * 12) by lia.
  rewrite Z.div_add, Z.mod_add by lia.
  replace (y + (m - 1 + i) / 12) with ((m - 1 + i) / 12 + y) by lia. lia.
Qed.

Lemma months_after_month y m i : 1 ≤ snd (months_after y m i) ≤ 12.
Proof. unfold months_after. simpl. div_lia. Qed.

(** *** Digits *)

Lemma digit_char_digit d :
  0 ≤ d < 10 → is_digit (digit_char d) = true ∧ digit_val (digit_char d) = d.
Proof.
  intros Hd.
  assert (d = 0 ∨ d = 1 ∨ d = 2 ∨ d = 3 ∨ d = 4 ∨ d = 5 ∨ d = 6 ∨ d = 7
          ∨ d = 8 ∨ d = 9) as Hcases by lia.
  repeat (destruct Hcases as [->|Hcases]; [by vm_compute|]).
  subst d. by vm_compute.
Qed.

Lemma mod_10_digit n : 0 ≤ n mod 10 < 10.
Proof. apply Z.mod_pos_bound. lia. Qed.

Lemma is_digit_mod n : is_digit (digit_char (n mod 10)) = true.
Proof. apply digit_char_digit, mod_10_digit. Qed.

Lemma digit_val_mod n : digit_val (digit_char (n mod 10)) = n mod 10.
Proof. apply digit_char_digit, mod_10_digit. Qed.

Lemma DaysInMonth_first y m : (1 <=? DaysInMonth y m) = true.
Proof.
  unfold DaysInMonth.
  destruct (m =? 2); [by destruct (is_leap y)|].
  by destruct ((m =? 4) || (m =? 6) || (m =? 9) || (m =? 11)).
Qed.

(** [new Date] of the first day of a month written [YYYY-MM-01]. *)
Lemma new_Date_first y m :
  0 ≤ y ≤ 9999 → 1 ≤ m ≤ 12 →
  new_Date (year_month (y, m) +:+ "-01")
  = Some (MakeDate (days_from_civil y m 1) 0).
Proof.
  intros Hy Hm. unfold year_month, pad.
  cbn [fst snd digits_onto].
  cbv beta iota fix delta [String.append new_Date].
  cbn [forallb].
  rewrite !is_digit_mod.
  change (is_digit "0") with true. change (is_digit "1") with true.
  change (Ascii.eqb "-" "-") with true. cbn [andb].
  unfold digits_value. cbn [fold_left]. rewrite !digit_val_mod.
  change (digit_val "0") with 0. change (digit_val "1") with 1.
  replace (10 * (10 * (10 * (10 * 0 + y / 10 / 10 / 10 mod 10)
                        + y / 10 / 10 mod 10) + y / 10 mod 10) + y mod 10)
    with y by div_lia.
  replace (10 * (10 * 0 + m / 10 mod 10) + m mod 10)
    with m by div_lia.
  replace (10 * (10 * 0 + 0) + 1) with 1 by lia.
  rewrite DaysInMonth_first.
  destruct (Z.leb_spec 1 m); [|lia]. destruct (Z.leb_spec m 12); [|lia].
  done.
Qed.

(** The first seven characters of an ISO string whose year has four
    digits. *)
Lemma slice0_year_month y m rest :
  0 ≤ y ≤ 9999 →
  slice0 7 (year_string y +:+ "-" +:+ pad 2 m +:+ rest) = year_month (y, m).
Proof.
  intros Hy. unfold year_string.
  destruct (Z.leb_spec 0 y); [|lia]. destruct (Z.leb_spec y 9999); [|lia].
  reflexivity.
Qed.

(** *** A constant offset at or east of UTC, less than a day away *)

Section Eastward.
Variable LocalTZA : Z.
Hypothesis east : 0 ≤ LocalTZA < msPerDay.

Lemma Day_local D : Day (LocalTime LocalTZA (MakeDate D 0)) = D.
Proof.
  unfold Day, LocalTime, MakeDate, msPerDay in *.
  div_lia.
Qed.

Lemma TimeWithinDay_local D :
  TimeWithinDay (LocalTime LocalTZA (MakeDate D 0)) = LocalTZA.
Proof.
  unfold TimeWithinDay, LocalTime, MakeDate, msPerDay in *.
  div_lia.
Qed.

Lemma getMonth_first y m :
  1 ≤ m ≤ 12 →
  getMonth LocalTZA (Some (MakeDate (days_from_civil y m 1) 0)) = Some (m - 1).
Proof.
  intros Hm. unfold getMonth, MonthFromTime.
  by rewrite Day_local, civil_from_days_from_civil.
Qed.

(** [setMonth] from the first of a month lands on UTC midnight of the
    first of the month [i] months on. *)
Lemma setMonth_first y m i :
  1 ≤ m ≤ 12 →
  -1 ≤ fst (months_after y m i) ≤ 10001 →
  setMonth LocalTZA (Some (MakeDate (days_from_civil y m 1) 0))
    (Some (i + (m - 1)))
  = Some (MakeDate (days_from_civil (fst (months_after y m i))
                      (snd (months_after y m i)) 1) 0).
Proof.
  intros Hm Hy. unfold setMonth, YearFromTime, DateFromTime.
  rewrite Day_local, TimeWithinDay_local, civil_from_days_from_civil by done.
  cbn [fst snd]. replace (i + (m - 1)) with (m - 1 + i) by lia.
  rewrite MakeDay_months_after by done.
  pose proof (days_from_civil_bounds _ _ Hy (months_after_month y m i)) as Hb.
  set (D := days_from_civil _ _ 1) in *.
  unfold UTC, MakeDate, TimeClip.
  replace (D * msPerDay + LocalTZA - LocalTZA) with (D * msPerDay + 0) by lia.
  destruct (Z.leb_spec (Z.abs (D * msPerDay + 0)) 8640000000000000) as [|Hbig];
    [done|].
  unfold msPerDay in Hbig. lia.
Qed.

Lemma toISOString_first y m :
  1 ≤ m ≤ 12 → 0 ≤ y ≤ 9999 →
  ∃ iso, toISOString (Some (MakeDate (days_from_civil y m 1) 0)) = Returned iso
    ∧ slice0 7 iso = year_month (y, m).
Proof.
  intros Hm Hy. unfold toISOString, YearFromTime, MonthFromTime, DateFromTime.
  replace (Day (MakeDate (days_from_civil y m 1) 0)) with (days_from_civil y m 1)
    by (unfold Day, MakeDate, msPerDay; div_lia).
  rewrite civil_from_days_from_civil by done. cbn [fst snd].
  eexists. split; [reflexivity|].
  replace (m - 1 + 1) with m by lia.
  by apply slice0_year_month.
Qed.

(** One turn of the forecast loop, on the date side: from the first of
    month [m] of year [y], offset [i] gives the month [i] months on. *)
Lemma forecast_month y m i :
  0 ≤ y ≤ 9999 → 1 ≤ m ≤ 12 →
  0 ≤ fst (months_after y m i) ≤ 9999 →
  let lastDate := new_Date (year_month (y, m) +:+ "-01") in
  ∃ iso,
    toISOString (setMonth LocalTZA lastDate (Z.add i <$> getMonth LocalTZA lastDate))
    = Returned iso
    ∧ slice0 7 iso = year_month (months_after y m i).
Proof.
  intros Hy Hm Hy2 lastDate. unfold lastDate.
  rewrite new_Date_first, getMonth_first by done. cbn [fmap option_fmap option_map].
  rewrite setMonth_first by (done || lia).
  destruct (toISOString_first (fst (months_after y m i)) (snd (months_after y m i)))
    as (iso & Hiso & Hslice); [apply months_after_month|done|].
  exists iso. split; [done|]. rewrite Hslice. by destruct (months_after y m i).
Qed.

End Eastward.

End JsDateFacts.

(* ===================================================================== *)
(** ** predictSales *)
(* ===================================================================== *)

Module ForecastFacts.
Import Encoder EncoderFacts JsNumberFacts JsDate Calendar Component JsDateFacts.

Section Zone.
Variable LocalTZA : Z.

Lemma forecast_entry_returned m p lastDate product i e :
  forecast_entry LocalTZA m p lastDate product i = Returned e →
  e = mkEntry (date e) product (predicted_quantity (m (forecast_input p product i)))
  ∧ ∃ iso,
      toISOString (setMonth LocalTZA lastDate (Z.add i <$> getMonth LocalTZA lastDate))
      = Returned iso
      ∧ date e = slice0 7 iso.
Proof.
  unfold forecast_entry.
  destruct (toISOString _) as [iso|msg]; [|discriminate].
  intros H. inversion H; subst; simpl. eauto.
Qed.

Abbreviation entries_for m p lastDate product :=
  (Forall2 (λ i e, forecast_entry LocalTZA m p lastDate product i = Returned e)).

(** When the inner loop completes, it has pushed one entry per offset, in
    order. *)
Lemma for_offsets_returned m p lastDate product todo acc r :
  for_offsets LocalTZA m p lastDate product todo acc = Returned r →
  ∃ es, r = acc ++ es ∧ entries_for m p lastDate product todo es.
Proof.
  revert acc; induction todo as [|i todo IH]; intros acc; simpl.
  - intros H. inversion H; subst. exists []. by rewrite app_nil_r.
  - destruct (forecast_entry LocalTZA m p lastDate product i) as [e|msg] eqn:E;
      [|discriminate].
    intros (es & -> & Hes)%IH. exists (e :: es).
    rewrite <- app_assoc. split; [done|]. by constructor.
Qed.

Lemma forEach_product_returned m p lastDate ps acc r :
  forEach_product LocalTZA m p lastDate ps acc = Returned r →
  ∃ ess, r = acc ++ concat ess
    ∧ Forall2 (λ product es, entries_for m p lastDate product offsets es) ps ess.
Proof.
  revert acc; induction ps as [|product ps IH]; intros acc;
    cbn [forEach_product].
  - intros H. inversion H; subst. exists []. by rewrite app_nil_r.
  - destruct (for_offsets LocalTZA m p lastDate product offsets acc)
      as [acc'|msg] eqn:E; [|discriminate].
    apply for_offsets_returned in E as (es & -> & Hes).
    intros (ess & -> & Hess)%IH. exists (es :: ess).
    rewrite <- app_assoc. split; [done|]. by constructor.
Qed.

(** What [predictSales] stores when it runs on a non-empty [salesData] and
    returns: six entries for each product of the table, product after
    product. *)
Lemma predictSales_returned m snap store store' :
  salesData snap ≠ [] →
  predictSales LocalTZA (Some m) snap store = Returned store' →
  ∃ p ess,
    dataProcessing_try (salesData snap) = Returned p
    ∧ store' = setPredictions (concat ess) store
    ∧ Forall2 (λ product es,
                 entries_for m p (lastDate_of (dates p)) product offsets es)
              (products p) ess.
Proof.
  intros Hne. unfold predictSales, dataProcessing.
  rewrite (EncodingRange.dataProcessing_try_returns _ Hne). cbv beta iota zeta.
  match goal with |- context [dates ?x] => set (p := x) end.
  destruct (forEach_product LocalTZA m p (lastDate_of (dates p)) (products p) [])
    as [r|msg] eqn:E; [|discriminate].
  apply forEach_product_returned in E as (ess & -> & Hess).
  intros H. inversion H; subst. exists p, ess. done.
Qed.

Lemma entries_length m p lastDate ps ess :
  Forall2 (λ product es, entries_for m p lastDate product offsets es) ps ess →
  length (concat ess) = (6 * length ps)%nat.
Proof.
  induction 1 as [|product es ps ess Hes _ IH]; [done|].
  simpl. rewrite length_app, IH.
  apply Forall2_length in Hes. simpl in Hes. lia.
Qed.

Lemma entries_elem m p lastDate ps ess e :
  Forall2 (λ product es, entries_for m p lastDate product offsets es) ps ess →
  e ∈ concat ess →
  ∃ product i, product ∈ ps ∧ i ∈ offsets
    ∧ forecast_entry LocalTZA m p lastDate product i = Returned e.
Proof.
  induction 1 as [|product es ps ess Hes _ IH]; simpl.
  - by intros ?%elem_of_nil.
  - intros [He|He]%elem_of_app.
    + apply list_elem_of_lookup_1 in He as [k Hk].
      destruct (Forall2_lookup_r _ _ _ _ _ Hes Hk) as (i & Hi & Hie).
      exists product, i. split; [left|].
      split; [by eapply list_elem_of_lookup_2|done].
    + destruct (IH He) as (product' & i & ? & ? & ?).
      exists product', i. split; [by right|done].
Qed.

(** C7, as found false: a model whose raw output is NaN gives predicted
    quantities that are NaN, through [Math.round] and [Math.max]. *)
Lemma NaN_output_gives_NaN_quantities :
  ∃ store',
    predictSales 0 (Some Samples.NaN_model) Samples.scenario_store
      Samples.scenario_store = Returned store'
    ∧ map quantity (predictions store')
      = [NaN; NaN; NaN; NaN; NaN; NaN; NaN; NaN; NaN; NaN; NaN; NaN]
    ∧ predicted_quantity (Inf false) = Inf false.
Proof. eexists. split; [by vm_compute|]. split; by vm_compute. Qed.

(** A finite scaled output rounds to an integer, and the maximum with 0 is
    not negative. *)
Lemma predicted_quantity_finite raw :
  isFinite (js_mul raw (Fin 1000)) = true →
  ∃ n : Z, 0 ≤ n ∧ predicted_quantity raw = Fin (inject_Z n).
Proof.
  unfold predicted_quantity.
  destruct (js_mul raw (Fin 1000)) as [| |q]; try discriminate. intros _.
  cbn [Math_round Math_max]. set (r := Qfloor (q + (1 # 2))).
  destruct (Qle_bool 0 (inject_Z r)) eqn:E.
  - exists r. split; [|done].
    apply Qle_bool_iff in E. change 0%Q with (inject_Z 0) in E.
    by rewrite <- Zle_Qle in E.
  - exists 0. split; [lia|reflexivity].
Qed.

Lemma offsets_lookup (k : nat) :
  (k < 6)%nat → offsets !! k = Some (Z.of_nat k + 1).
Proof. intros Hk. do 6 (destruct k as [|k]; [done|]). lia. Qed.

(** The entry at place [6 * j + k] of what the loops have pushed is the one
    of the product at place [j] and of the offset [k + 1]. *)
Lemma entries_lookup m p lastDate ps ess (j k : nat) pr :
  Forall2 (λ product es, entries_for m p lastDate product offsets es) ps ess →
  ps !! j = Some pr → (k < 6)%nat →
  ∃ e, concat ess !! (6 * j + k)%nat = Some e
    ∧ forecast_entry LocalTZA m p lastDate pr (Z.of_nat k + 1) = Returned e.
Proof.
  intros Hess. revert j.
  induction Hess as [|product es ps ess Hes _ IH]; intros j Hj Hk; [done|].
  pose proof (Forall2_length _ _ _ Hes) as Hlen. cbn [offsets length] in Hlen.
  cbn [concat]. destruct j as [|j]; cbn [lookup list_lookup] in Hj.
  - inversion Hj; subst product.
    destruct (Forall2_lookup_l _ _ _ k _ Hes (offsets_lookup k Hk))
      as (e & He & Hentry).
    exists e. split; [|done].
    replace (6 * 0 + k)%nat with k by lia. by rewrite lookup_app_l by lia.
  - destruct (IH j Hj Hk) as (e & He & Hentry). exists e. split; [|done].
    rewrite lookup_app_r by lia.
    by replace (6 * S j + k - length es)%nat with (6 * j + k)%nat by lia.
Qed.

(** C7, amended.  [predictSales] stores six entries for each product of
    the table, and the entry at place [6 * j + k] is the one of the product
    at place [j] and of the offset [k + 1]: its quantity is
    [Math.max(0, Math.round(raw * 1000))] for the raw output [raw] of the
    model on the feature row of that product and offset.  It is a
    non-negative integer whenever [raw * 1000] is a finite number; a NaN
    output gives NaN and an output of plus infinity gives plus
    infinity. *)
Theorem predicted_quantities_nonnegative_integers
    (m : Model) (snap store store' : State) :
  salesData snap ≠ [] →
  predictSales LocalTZA (Some m) snap store = Returned store' →
  ∃ p, dataProcessing_try (salesData snap) = Returned p
    ∧ length (predictions store') = (6 * length (products p))%nat
    ∧ ∀ (j k : nat) pr, products p !! j = Some pr → (k < 6)%nat →
        let raw := m (forecast_input p pr (Z.of_nat k + 1)) in
        ∃ e, predictions store' !! (6 * j + k)%nat = Some e
          ∧ product e = pr
          ∧ quantity e
            = Math_max (Fin 0) (Math_round (js_mul raw (Fin 1000)))
          ∧ (isFinite (js_mul raw (Fin 1000)) = true →
               ∃ n : Z, 0 ≤ n ∧ quantity e = Fin (inject_Z n))
          ∧ (raw = NaN → quantity e = NaN)
          ∧ (raw = Inf false → quantity e = Inf false).
Proof.
  intros Hne Hp.
  apply predictSales_returned in Hp as (p & ess & Hp & -> & Hess); [|done].
  exists p. split; [done|]. cbn [predictions setPredictions].
  split; [by apply (entries_length m p (lastDate_of (dates p)))|].
  intros j k pr Hj Hk.
  destruct (entries_lookup _ _ _ _ _ j k pr Hess Hj Hk) as (e & He & Hentry).
  exists e. split; [done|].
  apply forecast_entry_returned in Hentry as [-> _].
  cbn [product quantity]. split; [done|]. split; [done|].
  split; [apply predicted_quantity_finite|].
  unfold predicted_quantity. by split; intros ->.
Qed.

(** C9.  The table that [predictSales] works with inside [trainModel] is
    the one [trainModel] obtained before fitting: both calls of
    [dataProcessing] read the [salesData] captured by the same render, so
    whatever happens to the store during the fit, the second call returns
    the same products, dates and encoder, the handler's final state is
    built from that table, and what is given to the model as the code of a
    product is what its rows had in training: a number for every product
    but one named [__proto__], for which both reads give
    [Object.prototype]. *)
Theorem prediction_uses_training_table
    (fit : list feature_row → list jsnum → outcome Model)
    (during_fit : State → State) (snap store : State)
    (processed : Processed) (m : Model) :
  dataProcessing snap (setStatus training_started store)
  = (Some processed, setStatus training_started store) →
  fit (inputs processed) (outputs processed) = Returned m →
  let at_predict :=
    setIsModelTrained true
      (setModel (Some m) (during_fit (setStatus training_started store))) in
  dataProcessing snap at_predict = (Some processed, at_predict)
  ∧ trainModel LocalTZA fit during_fit snap store
    = match forEach_product LocalTZA m processed
              (lastDate_of (dates processed)) (products processed) [] with
      | Returned predictions =>
          setStatus training_completed (setPredictions predictions at_predict)
      | Threw message => setStatus message at_predict
      end
  ∧ (∀ i, map snd (inputs processed)
          = map (λ d, snd (forecast_input processed (product d) i))
                (salesData snap))
  ∧ (∀ d, d ∈ salesData snap →
       product d ∈ products processed
       ∧ (product d ≠ proto_key →
            ∃ code, get_property (encoder processed) (product d)
                    = Num (Fin code))
       ∧ (product d = proto_key →
            get_property (encoder processed) (product d) = ObjectPrototype)).
Proof.
  intros Htrain Hfit at_predict.
  assert (dataProcessing_try (salesData snap) = Returned processed) as Htry.
  { unfold dataProcessing in Htrain.
    destruct (dataProcessing_try (salesData snap)); by inversion Htrain. }
  assert (∀ s, dataProcessing snap s = (Some processed, s)) as Hsame.
  { intros s. unfold dataProcessing. by rewrite Htry. }
  assert (salesData snap ≠ []) as Hne.
  { intros E. rewrite E in Htry. discriminate. }
  split; [apply Hsame|]. split; [|split].
  - unfold trainModel. rewrite Htrain, Hfit. fold at_predict.
    unfold predictSales. rewrite Hsame.
    by destruct (forEach_product _ _ _ _ _ _).
  - intros i. rewrite (EncodingRange.dataProcessing_try_returns _ Hne) in Htry.
    inversion Htry; subst processed; clear Htry. simpl.
    rewrite map_map. by apply map_ext.
  - intros d Hd.
    destruct (EncodingRange.observation_in_table _ _ d Htry Hd) as [Hprod _].
    split; [done|]. split.
    + intros Hk.
      destruct (EncodingRange.product_code_range _ _ _ Htry Hprod Hk)
        as (code & Hcode & _).
      exists code. by apply get_property_own.
    + intros ->. apply (EncodingRange.encoder_proto _ _ Htry).
Qed.

End Zone.

(** C8.  For a table with M distinct months and an offset from 1 to 6, the
    time index given to the model is (M + offset) / (M + 6): it is 1 at
    offset 6 and grows strictly with the offset. *)
Theorem time_index_formula
    (sd : list Entry) (p : Processed) (product : string) (i : Z) :
  dataProcessing_try sd = Returned p →
  1 ≤ i ≤ 6 →
  let M := Z.of_nat (size (list_to_set (map date sd) : gset string)) in
  ∃ q, fst (forecast_input p product i) = Fin q
    ∧ (q == inject_Z (M + i) / inject_Z (M + 6))%Q
    ∧ (i = 6 → (q == 1)%Q)
    ∧ (∀ j q', i < j ≤ 6 → fst (forecast_input p product j) = Fin q' →
         (q < q')%Q).
Proof.
  intros Hp Hi M.
  destruct (EncodingRange.table_sizes sd p Hp) as [_ HM].
  assert (∀ k, 1 ≤ k ≤ 6 →
            fst (forecast_input p product k)
            = Fin (inject_Z (M + k) / inject_Z (M + 6))) as Hidx.
  { intros k Hk. simpl. unfold time_index. rewrite HM. fold M.
    apply js_div_of_Z; lia. }
  exists (inject_Z (M + i) / inject_Z (M + 6))%Q.
  assert (0 < inject_Z (M + 6))%Q as Hpos by (apply inject_Z_pos; lia).
  split; [by apply Hidx|]. split; [reflexivity|]. split.
  - intros ->. field. intros E. rewrite E in Hpos. by apply Qlt_irrefl in Hpos.
  - intros j q' Hj Hq'. rewrite Hidx in Hq' by lia. inversion Hq'; subst q'.
    unfold Qdiv. apply Qmult_lt_compat_r; [by apply Qinv_lt_0_compat|].
    apply inject_Z_lt. lia.
Qed.

Lemma time_index_formula_witness :
  ∃ q, time_index ["2024-01-01"; "2024-02-01"]%string 6 = Fin q ∧ (q == 1)%Q.
Proof.
  destruct (time_index_formula Samples.three_observations
              (match dataProcessing_try Samples.three_observations with
               | Returned p => p
               | Threw _ => mkProcessed [] [] ∅ [] []
               end) "Widget" 6) as (q & Hq & _ & H1 & _).
  - reflexivity.
  - lia.
  - exists q. split; [exact Hq|]. by apply H1.
Defined.

(** *** The shape and the months of the forecast *)

(** When [predictSales] returns on a non-empty [salesData], it has stored
    six entries per distinct product, whatever the time zone. *)
Lemma predictSales_six_per_product zone m snap store store' :
  salesData snap ≠ [] →
  predictSales zone (Some m) snap store = Returned store' →
  length (predictions store')
  = (6 * size (list_to_set (map product (salesData snap)) : gset string))%nat.
Proof.
  intros Hne Hp.
  apply predictSales_returned in Hp as (p & ess & Hp & -> & Hess); [|done].
  cbn [predictions setPredictions].
  rewrite (entries_length _ _ _ _ _ _ Hess).
  assert (products p = Set_of (map product (salesData snap))) as ->.
  { rewrite (EncodingRange.dataProcessing_try_returns _ Hne) in Hp.
    by inversion Hp. }
  by rewrite Set_of_length.
Qed.

(** *** The months when the zone is a constant offset at or east of UTC *)

Section Eastward.
Variable LocalTZA : Z.
Hypothesis east : 0 ≤ LocalTZA < msPerDay.

Lemma for_offsets_all m p lastDate product (f : Z → Entry) todo acc :
  (∀ i, i ∈ todo →
     forecast_entry LocalTZA m p lastDate product i = Returned (f i)) →
  for_offsets LocalTZA m p lastDate product todo acc
  = Returned (acc ++ map f todo).
Proof.
  revert acc; induction todo as [|i todo IH]; intros acc Hall; simpl.
  - by rewrite app_nil_r.
  - rewrite (Hall i) by left.
    rewrite IH by (intros j Hj; apply Hall; by right).
    by rewrite <- app_assoc.
Qed.

Lemma forEach_product_all m p lastDate (f : string → Z → Entry) ps acc :
  (∀ product i, product ∈ ps → i ∈ offsets →
     forecast_entry LocalTZA m p lastDate product i = Returned (f product i)) →
  forEach_product LocalTZA m p lastDate ps acc
  = Returned (acc ++ flat_map (λ product, map (f product) offsets) ps).
Proof.
  revert acc; induction ps as [|product ps IH]; intros acc Hall;
    cbn [forEach_product flat_map].
  - by rewrite app_nil_r.
  - rewrite (for_offsets_all _ _ _ _ (f product))
      by (intros i Hi; apply Hall; [left|done]).
    rewrite IH by (intros product' i Hp Hi; apply Hall; [by right|done]).
    by rewrite <- app_assoc.
Qed.

Lemma offsets_range i : i ∈ offsets → 1 ≤ i ≤ 6.
Proof.
  unfold offsets. rewrite !elem_of_cons, elem_of_nil. lia.
Qed.

(** With a zone of constant offset, at or east of UTC, and a last observed
    month [mo] of year [y], written [YYYY-MM-01], [predictSales]
    returns and stores, for each
    product of the table in turn, one entry for each of the six months
    that follow, rolling over the year; the years stay within four
    digits. *)
Lemma predictSales_months (m : Model) (snap store : State)
    (p : Processed) (y mo : Z) :
  dataProcessing_try (salesData snap) = Returned p →
  last (dates p) = Some (year_month (y, mo) +:+ "-01") →
  0 ≤ y → 1 ≤ mo ≤ 12 → fst (months_after y mo 6) ≤ 9999 →
  predictSales LocalTZA (Some m) snap store
  = Returned
      (setPredictions
         (flat_map
            (λ product,
               map (λ i, mkEntry (year_month (months_after y mo i)) product
                           (predicted_quantity (m (forecast_input p product i))))
                   offsets)
            (products p))
         store).
Proof.
  intros Hp Hlast Hy Hmo Hend.
  unfold predictSales, dataProcessing. rewrite Hp.
  rewrite (forEach_product_all _ _ _
             (λ product i, mkEntry (year_month (months_after y mo i)) product
                             (predicted_quantity (m (forecast_input p product i)))));
    [done|].
  intros product i _ Hi%offsets_range.
  unfold forecast_entry, lastDate_of. rewrite Hlast.
  assert (0 ≤ fst (months_after y mo i) ≤ 9999) as Hyi.
  { unfold months_after in *. simpl in *. div_lia. }
  assert (0 ≤ y ≤ 9999) as Hy'.
  { unfold months_after in *. simpl in *. div_lia. }
  destruct (forecast_month LocalTZA east y mo i Hy' Hmo Hyi)
    as (iso & -> & ->).
  done.
Qed.

(** X13.  With a zone of constant offset, at or east of UTC, the dates
    stored are the next six months, once per product, and there are six
    entries per product. *)
Lemma predictSales_next_six_months (m : Model) (snap store : State)
    (p : Processed) (y mo : Z) :
  dataProcessing_try (salesData snap) = Returned p →
  last (dates p) = Some (year_month (y, mo) +:+ "-01") →
  0 ≤ y → 1 ≤ mo ≤ 12 → fst (months_after y mo 6) ≤ 9999 →
  ∃ store',
    predictSales LocalTZA (Some m) snap store = Returned store'
    ∧ map date (predictions store')
      = flat_map (λ _, next_six_months y mo) (products p)
    ∧ length (predictions store') = (6 * length (products p))%nat.
Proof.
  intros Hp Hlast Hy Hmo Hend. eexists.
  split; [by apply (predictSales_months m snap store p y mo)|].
  cbn [predictions setPredictions]. split.
  - induction (products p) as [|product ps IH]; [done|].
    cbn [flat_map]. rewrite map_app, IH. by f_equal.
  - induction (products p) as [|product ps IH]; [done|].
    cbn [flat_map]. rewrite length_app, IH, length_map. simpl. lia.
Qed.

End Eastward.

(** C1, where the code departs from it.  On a host five hours west of UTC,
    with December 2024 as the last observed month, the six months stored
    for the product are 2024-12, 2025-01, 2025-03, 2025-03, 2025-05 and
    2025-05, not 2025-01 to 2025-06: the date string is read as UTC
    midnight, [getMonth] and [setMonth] work in local time, where that
    instant is the evening of 30 November, and [toISOString] prints UTC
    again.  The number of entries is still six per product. *)
Theorem predictSales_west_of_UTC (m : Model) :
  ∃ store',
    predictSales Samples.UTC_minus_5 (Some m) Samples.december_store
      Samples.december_store = Returned store'
    ∧ map date (predictions store')
      = ["2024-12"; "2025-01"; "2025-03"; "2025-03"; "2025-05"; "2025-05"]%string
    ∧ map product (predictions store')
      = ["Widget"; "Widget"; "Widget"; "Widget"; "Widget"; "Widget"]%string
    ∧ map date (predictions store') ≠ Calendar.next_six_months 2024 12.
Proof.
  eexists. split; [by vm_compute|]. split; [by vm_compute|].
  split; [by vm_compute|]. vm_compute. discriminate.
Qed.

(** The departure is not particular to one zone: in every zone west of UTC,
    by up to a day, the first month stored after December 2024 is December
    2024 itself. *)
Lemma west_of_UTC_first_month (LocalTZA : Z) (m : Model) (p : Processed)
    (product : string) :
  - msPerDay ≤ LocalTZA < 0 →
  ∃ e, forecast_entry LocalTZA m p (new_Date "2024-12-01") product 1 = Returned e
    ∧ date e = "2024-12"%string.
Proof.
  intros Hwest.
  change (new_Date "2024-12-01") with (Some 1733011200000).
  assert (Day (LocalTime LocalTZA 1733011200000) = 20057) as Hday
    by (unfold Day, LocalTime, msPerDay in *; div_lia).
  assert (TimeWithinDay (LocalTime LocalTZA 1733011200000) = msPerDay + LocalTZA)
    as Htime by (unfold TimeWithinDay, LocalTime, msPerDay in *; div_lia).
  unfold forecast_entry, getMonth, setMonth, MonthFromTime, YearFromTime,
    DateFromTime.
  cbn [fmap option_fmap option_map]. rewrite Hday, Htime.
  change (civil_from_days 20057) with (2024, 11, 30). cbn [fst snd].
  change (MakeDay 2024 (1 + (11 - 1)) 30) with 20087.
  unfold UTC, MakeDate.
  replace (20087 * msPerDay + (msPerDay + LocalTZA) - LocalTZA)
    with 1735603200000 by (unfold msPerDay; lia).
  eexists. split; reflexivity.
Qed.

(** In UTC the same input gives the months 2025-01 to 2025-06. *)
Lemma predictSales_December_in_UTC (m : Model) :
  ∃ store',
    predictSales 0 (Some m) Samples.december_store Samples.december_store
    = Returned store'
    ∧ map date (predictions store') = Calendar.next_six_months 2024 12.
Proof. eexists. split; by vm_compute. Qed.

(** The end-to-end scenario: three rows, two products and two months give
    three feature rows and, in UTC, twelve predictions over 2024-03 to
    2024-08, Widget first. *)
Example end_to_end_scenario :
  Parser.parse (unlines [Samples.header; "2024-01,Widget,100";
                         "2024-02,Widget,120"; "2024-01,Gadget,50"])
  = Returned Samples.three_observations
  ∧ ∃ store',
      predictSales 0 (Some Samples.third_model) Samples.scenario_store
        Samples.scenario_store = Returned store'
      ∧ map (λ e, (product e, date e)) (predictions store')
        = map (pair "Widget") (next_six_months 2024 2)
          ++ map (pair "Gadget") (next_six_months 2024 2)
      ∧ next_six_months 2024 2
        = ["2024-03"; "2024-04"; "2024-05"; "2024-06"; "2024-07"; "2024-08"]%string.
Proof.
  split; [by vm_compute|]. eexists. split; [by vm_compute|].
  split; by vm_compute.
Qed.

Lemma predicted_quantities_nonnegative_integers_witness :
  ∃ p, dataProcessing_try (salesData Samples.scenario_store) = Returned p
    ∧ length
        (predictions
           (match predictSales 0 (Some Samples.picky_model)
                    Samples.scenario_store Samples.scenario_store with
            | Returned s => s
            | Threw _ => Samples.scenario_store
            end))
      = (6 * length (products p))%nat.
Proof.
  destruct (predicted_quantities_nonnegative_integers 0
              Samples.picky_model Samples.scenario_store Samples.scenario_store
              (match predictSales 0 (Some Samples.picky_model)
                       Samples.scenario_store Samples.scenario_store with
               | Returned s => s
               | Threw _ => Samples.scenario_store
               end)) as (p & Hp & Hlen & _).
  - discriminate.
  - vm_compute. reflexivity.
  - exists p. split; [exact Hp|exact Hlen].
Defined.

Lemma prediction_uses_training_table_witness :
  fst (dataProcessing Samples.scenario_store
         (setIsModelTrained true
            (setModel (Some Samples.third_model)
               (onload Samples.sample_rows
                  (setStatus training_started Samples.scenario_store)))))
  = match dataProcessing_try Samples.three_observations with
    | Returned p => Some p
    | Threw _ => None
    end.
Proof.
  refine (f_equal fst (proj1 (prediction_uses_training_table 0
            (λ _ _, Returned Samples.third_model) (onload Samples.sample_rows)
            Samples.scenario_store Samples.scenario_store
            (match dataProcessing_try Samples.three_observations with
             | Returned p => p
             | Threw _ => mkProcessed [] [] ∅ [] []
             end) Samples.third_model _ _))); reflexivity.
Defined.

End ForecastFacts.


(* ===================================================================== *)
(** ** More on the parser: lines, headers, trailing white space *)
(* ===================================================================== *)

Module ParserLines.
Import Parser JsStringFacts ParserFacts.

Lemma split_app sep a b :
  split sep (a +:+ String sep b) = split sep a ++ split sep b.
Proof.
  induction a as [|c a IH]; cbn [String.append split].
  - cbv beta iota fix delta [String.append]. cbn [split].
    by rewrite Ascii.eqb_refl.
  - cbv beta iota fix delta [String.append]. fold (String.append a (String sep b)).
    cbn [split]. destruct (Ascii.eqb c sep); [by rewrite IH|].
    rewrite IH. destruct (split sep a) as [|hd tl] eqn:E; [|done].
    by apply split_nonempty in E.
Qed.

Lemma dataLines_header h body :
  contains newline h = false →
  dataLines (h +:+ String newline body) = split newline body.
Proof.
  intros Hh. unfold dataLines. by rewrite split_app, (split_no_sep _ _ Hh).
Qed.

Lemma parsedData_of_lines h body :
  contains newline h = false →
  parsedData_of (h +:+ String newline body)
  = omap spec_observation
      (filter (λ row, spec_well_formed row = true) (split newline body)).
Proof.
  intros Hh. by rewrite parsedData_of_spec; unfold spec_parse;
    rewrite dataLines_header.
Qed.

(** X1.  The first line is skipped whatever it holds: two texts that differ
    only in their header line parse alike. *)
Theorem header_is_ignored (h1 h2 body : string) :
  contains newline h1 = false →
  contains newline h2 = false →
  parse (h1 +:+ String newline body) = parse (h2 +:+ String newline body).
Proof.
  intros H1 H2. by rewrite !parse_cases, !parsedData_of_lines.
Qed.

Lemma header_is_ignored_witness :
  parse ("2024-01,Widget,100" +:+ String newline "2024-02,Gadget,7")
  = parse ("" +:+ String newline "2024-02,Gadget,7").
Proof. apply header_is_ignored; reflexivity. Defined.

(** X2.  Rows are handled one by one: the observations of a text whose data
    lines are those of [b1] followed by those of [b2] are the observations
    of the first part followed by those of the second. *)
Theorem rows_parse_independently (h b1 b2 : string) :
  contains newline h = false →
  parsedData_of (h +:+ String newline (b1 +:+ String newline b2))
  = parsedData_of (h +:+ String newline b1)
    ++ parsedData_of (h +:+ String newline b2).
Proof.
  intros Hh. rewrite !parsedData_of_lines by done.
  by rewrite split_app, filter_app, omap_app.
Qed.

Lemma rows_parse_independently_witness :
  parsedData_of (Samples.header +:+ String newline
                   ("2024-01,Widget,100" +:+ String newline "bad" +:+
                    String newline "2024-02,Gadget,7"))
  = [mkEntry "2024-01-01" "Widget" (Fin 100)]
    ++ [mkEntry "2024-02-01" "Gadget" (Fin 7)].
Proof.
  refine (eq_trans (rows_parse_independently Samples.header
                      "2024-01,Widget,100"
                      ("bad" +:+ String newline "2024-02,Gadget,7") _) _);
    reflexivity.
Defined.

(** *** Appending to a line *)

Lemma append_cons c a b : String c a +:+ b = String c (a +:+ b).
Proof. reflexivity. Qed.

Lemma append_nil b : EmptyString +:+ b = b.
Proof. reflexivity. Qed.

Lemma rev_onto_app x y acc :
  rev_onto (x +:+ y) acc = rev_onto y (rev_onto x acc).
Proof.
  revert acc; induction x as [|c x IH]; intros acc; [done|].
  rewrite append_cons. cbn [rev_onto]. apply IH.
Qed.

Lemma trimStart_app s t :
  trimStart (s +:+ t)
  = if all_chars is_space s then trimStart t else trimStart s +:+ t.
Proof.
  induction s as [|c s IH]; [done|].
  rewrite append_cons. cbn [trimStart all_chars].
  destruct (is_space c); [exact IH|done].
Qed.

(** A white-space character at the end of a string is trimmed away. *)
Lemma trim_snoc_space s c :
  is_space c = true → trim (s +:+ String c EmptyString) = trim s.
Proof.
  intros Hc. unfold trim. rewrite trimStart_app.
  destruct (all_chars is_space s) eqn:E.
  - apply trimStart_empty in E. rewrite E. cbn [trimStart]. by rewrite Hc.
  - unfold trimEnd, rev. rewrite rev_onto_app. cbn [rev_onto trimStart].
    by rewrite Hc.
Qed.

Lemma space_not_comma c : is_space c = true → Ascii.eqb c comma = false.
Proof.
  intros Hc. destruct (Ascii.eqb_spec c comma) as [->|]; [|done].
  vm_compute in Hc. discriminate Hc.
Qed.

(** Appending a character that is not the separator extends the last
    piece. *)
Lemma split_snoc sep s c :
  Ascii.eqb c sep = false →
  ∃ init last,
    split sep s = init ++ [last]
    ∧ split sep (s +:+ String c EmptyString)
      = init ++ [last +:+ String c EmptyString].
Proof.
  intros Hc. induction s as [|d s (init & last & Hs & Hsc)].
  - exists [], EmptyString. rewrite append_nil. cbn [split]. by rewrite Hc.
  - rewrite append_cons. cbn [split]. rewrite Hs, Hsc.
    destruct (Ascii.eqb d sep).
    + by exists (EmptyString :: init), last.
    + destruct init as [|hd tl]; cbn [app].
      * by exists [], (String d last).
      * by exists (String d hd :: tl), last.
Qed.

Lemma fields_snoc_space line c :
  is_space c = true → fields (line +:+ String c EmptyString) = fields line.
Proof.
  intros Hc. unfold fields.
  destruct (split_snoc comma line c (space_not_comma c Hc))
    as (init & last & -> & ->).
  rewrite !map_app. cbn [map]. by rewrite trim_snoc_space.
Qed.

(** X3.  White space at the end of a line, such as the carriage return of a
    CRLF line ending, changes nothing: the line is kept or dropped, and
    yields the same observation, as without it. *)
Theorem trailing_space_is_ignored
    (parsedData : list Entry) (line : string) (c : ascii) :
  is_space c = true →
  loop_body parsedData (line +:+ String c EmptyString)
  = loop_body parsedData line.
Proof.
  intros Hc. unfold loop_body.
  by rewrite trim_snoc_space, fields_snoc_space.
Qed.

Lemma trailing_space_is_ignored_witness :
  loop_body [] ("2024-01,Widget,100" +:+ String (Ascii.ascii_of_N 13) EmptyString)
  = [mkEntry "2024-01-01" "Widget" (Fin 100)].
Proof.
  refine (eq_trans (trailing_space_is_ignored [] "2024-01,Widget,100"
                      (Ascii.ascii_of_N 13) _) _); reflexivity.
Defined.

(** *** What every kept observation looks like *)

Lemma year_month_length ym :
  matches_year_month ym = true → String.length (ym +:+ "-01") = 10%nat.
Proof.
  destruct ym as [|y1 [|y2 [|y3 [|y4 [|d [|m1 [|m2 [|]]]]]]]]; try discriminate.
  done.
Qed.

Lemma length_omap_le {A B} (f : A → option B) l :
  (length (omap f l) ≤ length l)%nat.
Proof.
  induction l as [|x l IH]; csimpl; [lia|]. destruct (f x); csimpl; lia.
Qed.

(** X4.  Every observation that is kept has a date of the form [YYYY-MM-01],
    ten characters long, and a product that does not read as a number;
    and there are at most as many observations as data lines. *)
Theorem kept_observation_shape (text : string) (o : Entry) :
  o ∈ parsedData_of text →
  (∃ ym, date o = ym +:+ "-01" ∧ matches_year_month ym = true)
  ∧ String.length (date o) = 10%nat
  ∧ isNaN_string (product o) = true
  ∧ (length (parsedData_of text) ≤ length (dataLines text))%nat.
Proof.
  intros (row & _ & Hwf & Hobs)%elem_of_parsedData.
  unfold spec_well_formed, spec_observation in *.
  destruct (fields row) as [|d [|p [|q rest]]]; try discriminate.
  apply andb_true_iff in Hwf as [[Hd Hq]%andb_true_iff Hp].
  inversion Hobs; subst; simpl.
  split; [by exists d|]. split; [by apply year_month_length|].
  split; [done|].
  rewrite parsedData_of_spec. unfold spec_parse.
  etrans; [apply length_omap_le|apply length_filter].
Qed.

Lemma kept_observation_shape_witness :
  String.length (date (mkEntry "2024-02-01" "Gadget" (Fin 7.5))) = 10%nat
  ∧ isNaN_string "Gadget" = true.
Proof.
  destruct (kept_observation_shape Samples.sample_rows
              (mkEntry "2024-02-01" "Gadget" (Fin 7.5))) as (_ & Hl & Hp & _).
  - apply list_elem_of_In. vm_compute. right. left. reflexivity.
  - exact (conj Hl Hp).
Defined.

End ParserLines.

(* ===================================================================== *)
(** ** Writing observations as CSV and parsing them back *)
(* ===================================================================== *)

Module ParserRoundTrip.
Import Parser JsStringFacts ParserFacts ParserLines JsDate JsDateFacts Csv.

Lemma all_chars_impl (P Q : ascii → bool) s :
  (∀ c, P c = true → Q c = true) →
  all_chars P s = true → all_chars Q s = true.
Proof.
  intros HPQ. induction s as [|c s IH]; simpl; [done|].
  intros [Hc Hs]%andb_true_iff. rewrite (HPQ c Hc). auto.
Qed.

Lemma plain_not_special c :
  plain c = true →
  is_space c = false
  ∧ Ascii.eqb c comma = false ∧ Ascii.eqb c quote = false
  ∧ Ascii.eqb c newline = false.
Proof. destruct c as [[] [] [] [] [] [] [] []]; vm_compute; try done. Qed.

Lemma digit_not_sign c :
  is_digit c = true →
  is_space c = false ∧ Ascii.eqb c "+" = false ∧ Ascii.eqb c "-" = false
  ∧ Ascii.eqb "I" c = false.
Proof. destruct c as [[] [] [] [] [] [] [] []]; vm_compute; try done. Qed.

Lemma plain_no c s :
  (∀ x, plain x = true → Ascii.eqb x c = false) →
  all_chars plain s = true → contains c s = false.
Proof.
  intros Hc Hs. apply contains_all_chars.
  apply (all_chars_impl plain); [|done].
  intros x Hx. by rewrite (Hc x Hx).
Qed.

Lemma year_month_plain ym :
  matches_year_month ym = true → all_chars plain ym = true.
Proof.
  destruct ym as [|y1 [|y2 [|y3 [|y4 [|d [|m1 [|m2 [|]]]]]]]]; try discriminate.
  unfold matches_year_month, plain. cbn [all_chars].
  intros H. do 6 (apply andb_true_iff in H as [H ?]).
  repeat match goal with Hx : _ = true |- _ => rewrite ?Hx; clear Hx end.
  by rewrite ?orb_true_r.
Qed.

Lemma digits_onto_digits w n acc :
  all_chars is_digit (digits_onto w n acc) = all_chars is_digit acc.
Proof.
  revert n acc; induction w as [|w IH]; intros n acc; [done|].
  cbn [digits_onto]. rewrite IH. cbn [all_chars]. by rewrite is_digit_mod.
Qed.

Lemma pad_digits w n : all_chars is_digit (pad w n) = true.
Proof. unfold pad. by rewrite digits_onto_digits. Qed.

Lemma pad_plain w n : all_chars plain (pad w n) = true.
Proof.
  apply (all_chars_impl is_digit); [|apply pad_digits].
  intros c Hc. unfold plain. by rewrite Hc.
Qed.

(** *** Trimming what has no white space *)

Lemma append_empty_r s : s +:+ EmptyString = s.
Proof. induction s as [|c s IH]; [done|]. by rewrite append_cons, IH. Qed.

Lemma rev_onto_rev_onto s a b :
  rev_onto (rev_onto s a) b = rev_onto a (s +:+ b).
Proof.
  revert a b; induction s as [|c s IH]; intros a b; [done|].
  cbn [rev_onto]. rewrite IH. cbn [rev_onto]. by rewrite append_cons.
Qed.

Lemma rev_rev s : rev (rev s) = s.
Proof. unfold rev. rewrite rev_onto_rev_onto. cbn [rev_onto]. apply append_empty_r. Qed.

Lemma trimStart_no_space s :
  all_chars (λ c, negb (is_space c)) s = true → trimStart s = s.
Proof.
  destruct s as [|c s]; [done|]. cbn [all_chars trimStart].
  intros [Hc _]%andb_true_iff. by destruct (is_space c).
Qed.

Lemma trim_no_space s :
  all_chars (λ c, negb (is_space c)) s = true → trim s = s.
Proof.
  intros H. unfold trim, trimEnd.
  rewrite (trimStart_no_space s H), trimStart_no_space, rev_rev; [done|].
  by rewrite all_chars_rev.
Qed.

Lemma plain_field s : all_chars plain s = true → remove_quotes (trim s) = s.
Proof.
  intros H. rewrite trim_no_space.
  - apply remove_quotes_id, (plain_no quote); [|done].
    intros x Hx. apply (plain_not_special x Hx).
  - apply (all_chars_impl plain); [|done].
    intros c Hc. by rewrite (proj1 (plain_not_special c Hc)).
Qed.

(** *** Reading a run of digits *)

Lemma span_all P s :
  all_chars P s = true → span P s = (list_ascii_of_string s, EmptyString).
Proof.
  induction s as [|c s IH]; [done|]. cbn [all_chars span list_ascii_of_string].
  intros [-> Hs]%andb_true_iff. by rewrite (IH Hs).
Qed.

Lemma list_ascii_app a b :
  list_ascii_of_string (a +:+ b)
  = list_ascii_of_string a ++ list_ascii_of_string b.
Proof. induction a as [|c a IH]; [done|]. rewrite append_cons. simpl. by rewrite IH. Qed.

Lemma digits_onto_app w n acc :
  digits_onto w n acc = digits_onto w n EmptyString +:+ acc.
Proof.
  revert n acc; induction w as [|w IH]; intros n acc; [done|].
  cbn [digits_onto]. rewrite (IH _ (String _ acc)), (IH _ (String _ EmptyString)).
  induction (digits_onto w (n / 10) EmptyString) as [|c s IHs]; [done|].
  by rewrite !append_cons, IHs.
Qed.

Lemma digits_value_snoc ds c :
  digits_value (ds ++ [c]) = 10 * digits_value ds + digit_val c.
Proof. unfold digits_value. by rewrite fold_left_app. Qed.

(** The digits that [pad] writes read back as the number. *)
Lemma digits_value_pad w n :
  0 ≤ n < 10 ^ Z.of_nat w →
  digits_value (list_ascii_of_string (pad w n)) = n.
Proof.
  revert n; induction w as [|w IH]; intros n Hn.
  - simpl in *. unfold digits_value. simpl. lia.
  - unfold pad in *. cbn [digits_onto]. rewrite digits_onto_app, list_ascii_app.
    cbn [list_ascii_of_string]. rewrite digits_value_snoc, digit_val_mod.
    rewrite Nat2Z.inj_succ, Z.pow_succ_r in Hn by lia.
    rewrite IH; [div_lia|]. div_lia.
Qed.

Lemma pow10_300_lt_limit : (inject_Z (10 ^ 300) < double_limit)%Q.
Proof. by vm_compute. Qed.

(** [parseFloat] of a number written on [w] digits, [w] from 1 to 300. *)
Lemma parseFloat_pad w n :
  (1 ≤ w ≤ 300)%nat → 0 ≤ n < 10 ^ Z.of_nat w →
  parseFloat (pad w n) = Fin (inject_Z n).
Proof.
  intros Hw Hn.
  pose proof (pad_digits w n) as Hds. pose proof (digits_value_pad w n Hn) as Hv.
  destruct (pad w n) as [|c s] eqn:Epad.
  { destruct w as [|w]; [lia|]. unfold pad in Epad. cbn [digits_onto] in Epad.
    rewrite digits_onto_app in Epad.
    destruct (digits_onto w (n / 10) EmptyString); discriminate. }
  assert (is_digit c = true) as Hc
    by (cbn [all_chars] in Hds; by apply andb_true_iff in Hds as [? _]).
  destruct (digit_not_sign c Hc) as (Hsp & Hplus & Hminus & HI).
  unfold parseFloat. cbn [trimStart]. rewrite Hsp.
  unfold decimal_literal, take_sign. rewrite Hplus, Hminus.
  unfold unsigned_decimal. cbn [strip_prefix]. rewrite HI.
  rewrite (span_all _ _ Hds). cbn [list_ascii_of_string] in *.
  rewrite app_nil_r. cbn [exponent_part length]. rewrite Hv.
  replace (inject_Z n * Qpower 10 (0 - Z.of_nat 0))%Q with (inject_Z n)
    by (unfold Qmult, inject_Z; simpl; by rewrite Z.mul_1_r).
  unfold of_Q. destruct (Qle_bool double_limit (Qabs (inject_Z n))) eqn:E; [|done].
  apply Qle_bool_iff in E. rewrite Qabs_pos in E
    by (apply (JsNumberFacts.inject_Z_le 0 n); lia).
  destruct (Qlt_irrefl double_limit).
  eapply Qle_lt_trans; [exact E|].
  eapply Qle_lt_trans; [|exact pow10_300_lt_limit].
  apply JsNumberFacts.inject_Z_le.
  etrans; [apply Z.lt_le_incl, Hn|]. apply Z.pow_le_mono_r; lia.
Qed.

(** *** One row, then a whole text *)

Lemma year_month_not_blank ym rest :
  matches_year_month ym = true →
  String.eqb (trim (ym +:+ rest)) EmptyString = false.
Proof.
  intros Hym. destruct (String.eqb_spec (trim (ym +:+ rest)) EmptyString)
    as [E|]; [|done].
  apply trim_empty in E.
  destruct ym as [|c ym]; [discriminate|]. apply year_month_plain in Hym.
  rewrite append_cons in E. cbn [all_chars] in *.
  apply andb_true_iff in Hym as [Hc _]. apply andb_true_iff in E as [E _].
  by rewrite (proj1 (plain_not_special c Hc)) in E.
Qed.

Lemma fields_row ym p w n :
  matches_year_month ym = true →
  trim p = p → contains comma p = false → contains quote p = false →
  fields (row ym p w n) = [ym; p; pad w n].
Proof.
  intros Hym Htrim Hcomma Hquote. apply year_month_plain in Hym.
  assert (∀ s, all_chars plain s = true → contains comma s = false) as Hno.
  { intros s Hs. apply (plain_no comma); [|done].
    intros x Hx. apply (plain_not_special x Hx). }
  unfold fields, row. rewrite !split_app.
  rewrite (split_no_sep _ _ (Hno _ Hym)), (split_no_sep _ _ Hcomma),
    (split_no_sep _ _ (Hno _ (pad_plain w n))).
  cbn [app map]. rewrite (plain_field _ Hym), (plain_field _ (pad_plain w n)).
  by rewrite Htrim, (remove_quotes_id _ Hquote).
Qed.

(** A written row is kept, as the observation it stands for. *)
Lemma loop_body_row parsedData w ym p n :
  (1 ≤ w ≤ 300)%nat → writable w (ym, p, n) →
  loop_body parsedData (row ym p w n) = parsedData ++ [observation ym p n].
Proof.
  intros Hw (Hym & Htrim & Hcomma & Hquote & _ & Hp & Hn & _).
  unfold loop_body. unfold row at 1. rewrite (year_month_not_blank _ _ Hym).
  rewrite fields_row by done.
  rewrite Hym, (parseFloat_pad w n Hw Hn), Hp. done.
Qed.

Lemma row_no_newline w ym p n :
  writable w (ym, p, n) → contains newline (row ym p w n) = false.
Proof.
  intros (Hym%year_month_plain & _ & _ & _ & Hnl & _).
  assert (∀ a b, contains newline a = false → contains newline b = false →
            contains newline (a +:+ String comma b) = false) as Happ.
  { intros a b Ha Hb. induction a as [|c a IH]; [done|].
    rewrite append_cons. cbn [contains] in *.
    apply orb_false_iff in Ha as [-> Ha]. by rewrite IH. }
  assert (∀ s, all_chars plain s = true → contains newline s = false) as Hno.
  { intros s Hs. apply (plain_no newline); [|done].
    intros x Hx. apply (plain_not_special x Hx). }
  unfold row. apply Happ; [by apply Hno|].
  apply Happ; [done|apply Hno, pad_plain].
Qed.

Lemma split_unlines (ls : list string) :
  ls ≠ [] → Forall (λ l, contains newline l = false) ls →
  split newline (unlines ls) = ls.
Proof.
  induction ls as [|l ls IH]; [done|]. intros _ Hall.
  apply Forall_cons in Hall as [Hl Hls].
  destruct ls as [|l2 ls]; [by apply split_no_sep|].
  change (unlines (l :: l2 :: ls))
    with (l +:+ String newline (unlines (l2 :: ls))).
  by rewrite split_app, (split_no_sep _ _ Hl), IH.
Qed.

Lemma loop_rows w (rows : list (string * string * Z)) parsedData :
  (1 ≤ w ≤ 300)%nat → Forall (writable w) rows →
  fold_left loop_body (map (λ '(ym, p, n), row ym p w n) rows) parsedData
  = parsedData ++ map (λ '(ym, p, n), observation ym p n) rows.
Proof.
  intros Hw. revert parsedData.
  induction rows as [|[[ym p] n] rows IH]; intros parsedData Hall; simpl.
  - by rewrite app_nil_r.
  - apply Forall_cons in Hall as [Hrow Hrows].
    rewrite (loop_body_row _ _ _ _ _ Hw Hrow), IH by done.
    by rewrite <- app_assoc.
Qed.

(** X5.  Parsing inverts writing: a header line followed by one written
    row per observation, each with a whole quantity from 0 to 2^53, parses
    to exactly those observations, in order. *)
Theorem parse_inverts_writing
    (h : string) (w : nat) (rows : list (string * string * Z)) :
  contains newline h = false →
  (1 ≤ w ≤ 300)%nat →
  rows ≠ [] →
  Forall (writable w) rows →
  parse (unlines (h :: map (λ '(ym, p, n), row ym p w n) rows))
  = Returned (map (λ '(ym, p, n), observation ym p n) rows).
Proof.
  intros Hh Hw Hne Hall.
  assert (parsedData_of (unlines (h :: map (λ '(ym, p, n), row ym p w n) rows))
          = map (λ '(ym, p, n), observation ym p n) rows) as E.
  { unfold parsedData_of, dataLines. rewrite split_unlines.
    - cbn [tail]. by rewrite loop_rows.
    - done.
    - constructor; [done|]. apply Forall_fmap.
      eapply Forall_impl; [exact Hall|].
      intros [[ym p] n] Hrow. by apply row_no_newline. }
  rewrite parse_cases, E. by destruct rows.
Qed.

Lemma parse_inverts_writing_witness :
  parse (unlines [Samples.header; "2024-01,Blue Widget,0100";
                  "2024-02,Gadget,0007"])
  = Returned [mkEntry "2024-01-01" "Blue Widget" (Fin 100);
              mkEntry "2024-02-01" "Gadget" (Fin 7)].
Proof.
  refine (parse_inverts_writing Samples.header 4
            [("2024-01", "Blue Widget", 100); ("2024-02", "Gadget", 7)]%string
            _ _ _ _).
  - reflexivity.
  - lia.
  - discriminate.
  - repeat constructor; try reflexivity; try lia; by vm_compute.
Defined.

End ParserRoundTrip.

(* ===================================================================== *)
(** ** Uploads and what stays on screen *)
(* ===================================================================== *)

Module UploadFacts.
Import Parser ParserFacts Component.

(** X6.  An upload, whether it succeeds or fails, never touches the forecast:
    the predictions, the model, the trained flag and the selection stay, so
    the chart shown is the one of the data trained on before. *)
Theorem upload_keeps_the_forecast (text : string) (store : State) :
  predictions (onload text store) = predictions store
  ∧ model (onload text store) = model store
  ∧ isModelTrained (onload text store) = isModelTrained store
  ∧ selectedProduct (onload text store) = selectedProduct store
  ∧ View.chart_shown (onload text store) = View.chart_shown store
  ∧ (∀ localeCompare,
       Chart.getChartData localeCompare (onload text store)
       = Chart.getChartData localeCompare store).
Proof.
  unfold onload, View.chart_shown, Chart.getChartData, Chart.filteredPredictions.
  by destruct (parse text).
Qed.

(** X7.  After an upload the Train button is disabled exactly when it was
    disabled before and no data row of the file is well-formed: a failed
    upload keeps the data already loaded. *)
Theorem train_button_after_upload (text : string) (store : State) :
  (View.train_disabled (onload text store) = true
   ↔ View.train_disabled store = true
     ∧ ∀ row, row ∈ dataLines text → spec_well_formed row = false)
  ∧ (parsedData_of text = [] →
       salesData (onload text store) = salesData store)
  ∧ (parsedData_of text ≠ [] →
       salesData (onload text store) = spec_parse text
       ∧ View.select_options (onload text store)
         = "all"%string :: Encoder.Set_of (map product (spec_parse text))).
Proof.
  unfold onload, View.train_disabled, View.select_options, View.products.
  rewrite parse_cases, <- parsedData_nil, <- parsedData_of_spec.
  destruct (parsedData_of text) as [|o os]; cbn [salesData setStatus setSalesData].
  - split; [|done]. tauto.
  - split; [|done]. simpl. split; [discriminate|]. intros [_ ?]. done.
Qed.

End UploadFacts.

(* ===================================================================== *)
(** ** More on the table: order of products and of dates *)
(* ===================================================================== *)

Module TableFacts.
Import Encoder EncoderFacts JsNumberFacts EncodingRange.

(** *** Code-unit order of strings *)

Lemma leb_trans a b c :
  String.leb a b = true → String.leb b c = true → String.leb a c = true.
Proof.
  unfold String.leb. revert b c.
  induction a as [|x a IH]; intros [|y b] [|z c]; simpl; try done.
  unfold Ascii.compare.
  destruct (N.compare_spec (N_of_ascii x) (N_of_ascii y)),
           (N.compare_spec (N_of_ascii y) (N_of_ascii z)),
           (N.compare_spec (N_of_ascii x) (N_of_ascii z));
    try done; try lia.
  apply IH.
Qed.

Lemma ltb_not_leb a b : String.ltb a b = true → String.leb b a = false.
Proof.
  unfold String.ltb, String.leb. rewrite (String.compare_antisym b a).
  by destruct (String.compare a b).
Qed.

Lemma ascending_strongly l :
  ascending l → StronglySorted (λ a b, String.leb a b = true) l.
Proof.
  apply Sorted_StronglySorted. intros a b c. apply leb_trans.
Qed.

Lemma strongly_lookup l i j x y :
  StronglySorted (λ a b, String.leb a b = true) l →
  l !! i = Some x → l !! j = Some y → (i < j)%nat → String.leb x y = true.
Proof.
  intros Hs. revert i j. induction Hs as [|a l Hs IH Ha]; intros i j Hi Hj Hij.
  - done.
  - destruct j as [|j]; [lia|]. destruct i as [|i]; simpl in *.
    + inversion Hi; subst. rewrite Forall_forall in Ha.
      apply Ha. by eapply list_elem_of_lookup_2.
    + apply (IH i j); [done|done|lia].
Qed.

(** Two ascending lists without repetition that hold the same strings are
    the same list. *)
Lemma ascending_unique l1 l2 :
  StronglySorted (λ a b, String.leb a b = true) l1 →
  StronglySorted (λ a b, String.leb a b = true) l2 →
  NoDup l1 → NoDup l2 → (∀ x, x ∈ l1 ↔ x ∈ l2) → l1 = l2.
Proof.
  intros Hs1. revert l2.
  induction Hs1 as [|a l1 Hs1 IH Ha]; intros l2 Hs2 Hn1 Hn2 Hel.
  - destruct l2 as [|b l2]; [done|].
    assert (b ∈ []) as Hb by (apply Hel; left). by apply elem_of_nil in Hb.
  - destruct Hs2 as [|b l2 Hs2 Hb].
    { assert (a ∈ []) as H by (apply Hel; left). by apply elem_of_nil in H. }
    rewrite Forall_forall in Ha, Hb.
    apply NoDup_cons in Hn1 as [Ha1 Hn1]. apply NoDup_cons in Hn2 as [Hb2 Hn2].
    assert (a = b) as ->.
    { assert (a ∈ b :: l2) as H1 by (apply Hel; left).
      assert (b ∈ a :: l1) as H2 by (apply Hel; left).
      apply elem_of_cons in H1 as [|H1]; [done|].
      apply elem_of_cons in H2 as [|H2]; [done|].
      apply String.leb_antisym.
      - by apply Ha.
      - by apply Hb. }
    f_equal. apply IH; try done.
    intros x. specialize (Hel x). rewrite !elem_of_cons in Hel.
    split; intros Hx.
    + destruct (proj1 Hel (or_intror Hx)) as [->|]; done.
    + destruct (proj2 Hel (or_intror Hx)) as [->|]; done.
Qed.

(** *** [indexOf] finds the first place *)

Lemma indexOf_from_first i x l :
  x ∈ l →
  ∃ k : nat, l !! k = Some x ∧ indexOf_from i x l = i + Z.of_nat k
    ∧ ∀ k', (k' < k)%nat → l !! k' ≠ Some x.
Proof.
  revert i; induction l as [|y l IH]; intros i Hin.
  - by apply elem_of_nil in Hin.
  - cbn [indexOf_from]. destruct (String.eqb_spec y x) as [->|Hne].
    + exists 0%nat. split; [done|]. split; [lia|]. intros k' Hk'. lia.
    + apply elem_of_cons in Hin as [->|Hin]; [done|].
      destruct (IH (i + 1) Hin) as (k & Hk & Hidx & Hfirst).
      exists (S k). split; [done|]. split; [lia|].
      intros [|k'] Hk'; simpl; [congruence|]. apply Hfirst. lia.
Qed.

Lemma indexOf_NoDup l k x :
  NoDup l → l !! k = Some x → indexOf l x = Z.of_nat k.
Proof.
  intros Hnd Hk.
  destruct (indexOf_from_first 0 x l) as (k' & Hk' & Hidx & _);
    [by eapply list_elem_of_lookup_2|].
  unfold indexOf. rewrite Hidx.
  by rewrite (NoDup_lookup l k' k x Hnd Hk' Hk).
Qed.

Lemma leb_ne_ltb a b : String.leb a b = true → a ≠ b → String.ltb a b = true.
Proof.
  unfold String.leb, String.ltb. intros Hle Hne.
  destruct (String.compare a b) eqn:E; try done.
  by apply String.compare_eq_iff in E.
Qed.

Lemma ltb_irrefl a : String.ltb a a = false.
Proof.
  unfold String.ltb. pose proof (String.compare_antisym a a) as H.
  by destruct (String.compare a a).
Qed.

Lemma indexOf_from_shift i x l :
  x ∈ l → indexOf_from i x l = i + indexOf_from 0 x l.
Proof.
  revert i; induction l as [|y l IH]; intros i Hin.
  - by apply elem_of_nil in Hin.
  - cbn [indexOf_from]. destruct (String.eqb_spec y x) as [->|Hne]; [lia|].
    apply elem_of_cons in Hin as [->|Hin]; [done|].
    rewrite (IH (i + 1) Hin), (IH (0 + 1) Hin). lia.
Qed.

Lemma indexOf_cons_ne a x l :
  a ≠ x → x ∈ l → indexOf (a :: l) x = 1 + indexOf l x.
Proof.
  intros Hne Hin. unfold indexOf. cbn [indexOf_from].
  destruct (String.eqb_spec a x); [done|]. by rewrite indexOf_from_shift.
Qed.

Lemma nonempty_elem {A} (l : list A) : l ≠ [] → ∃ x, x ∈ l.
Proof. destruct l as [|x l]; [done|]. exists x. left. Qed.

(** *** The table of a non-empty [salesData] *)

Section Table.
Variables (sd : list Entry) (p : Processed).
Hypothesis table : dataProcessing_try sd = Returned p.

Lemma dates_strongly_sorted :
  StronglySorted (λ a b, String.leb a b = true) (dates p).
Proof.
  destruct (dataProcessing_try_inv sd p table) as (_ & _ & -> & _).
  apply ascending_strongly, Array_sort_ascending.
Qed.

Lemma dates_NoDup : NoDup (dates p).
Proof.
  destruct (dataProcessing_try_inv sd p table) as (_ & _ & -> & _).
  rewrite Array_sort_perm. apply Set_of_NoDup.
Qed.

Lemma dates_elem x : x ∈ dates p ↔ ∃ o, o ∈ sd ∧ date o = x.
Proof.
  destruct (dataProcessing_try_inv sd p table) as (_ & _ & -> & _).
  rewrite Array_sort_elem, Set_of_elem, list_elem_of_fmap.
  split; [intros (o & -> & Ho)|intros (o & Ho & <-)]; eauto.
Qed.

Lemma products_elem x : x ∈ products p ↔ ∃ o, o ∈ sd ∧ product o = x.
Proof.
  destruct (dataProcessing_try_inv sd p table) as (_ & -> & _).
  rewrite Set_of_elem, list_elem_of_fmap.
  split; [intros (o & -> & Ho)|intros (o & Ho & <-)]; eauto.
Qed.

(** X8.  The dates of the table are the sorted set of the months of the
    observations: each once, in strictly ascending order; the last one,
    from which [predictSales] starts, is the latest month observed. *)
Theorem dates_ascend_to_the_latest :
  dates p = Array_sort (Set_of (map date sd))
  ∧ NoDup (dates p)
  ∧ (∀ x, x ∈ dates p ↔ ∃ o, o ∈ sd ∧ date o = x)
  ∧ (∀ i j x y, dates p !! i = Some x → dates p !! j = Some y → (i < j)%nat →
       String.ltb x y = true)
  ∧ ∃ latest, last (dates p) = Some latest
      ∧ ∀ o, o ∈ sd → String.leb (date o) latest = true.
Proof.
  pose proof dates_strongly_sorted as Hs. pose proof dates_NoDup as Hnd.
  split; [by destruct (dataProcessing_try_inv sd p table) as (_ & _ & ? & _)|].
  split; [done|]. split; [apply dates_elem|]. split.
  - intros i j x y Hi Hj Hij. apply leb_ne_ltb.
    + by apply (strongly_lookup (dates p) i j).
    + intros ->. assert (i = j) by by eapply NoDup_lookup. lia.
  - destruct (dataProcessing_try_inv sd p table) as (Hne & _).
    destruct (last (dates p)) as [latest|] eqn:Hlast.
    + exists latest. split; [done|]. intros o Ho.
      assert (date o ∈ dates p) as Hd by (apply dates_elem; eauto).
      apply list_elem_of_lookup_1 in Hd as [i Hi].
      rewrite last_lookup in Hlast.
      destruct (decide (i = pred (length (dates p)))) as [->|Hne'].
      * rewrite Hi in Hlast. inversion Hlast; subst.
        destruct (String.leb_total (date o) (date o)); done.
      * apply (strongly_lookup (dates p) i (pred (length (dates p)))); try done.
        apply lookup_lt_Some in Hi. lia.
    + apply last_None in Hlast. destruct (nonempty_elem sd Hne) as [o Ho].
      assert (date o ∈ dates p) as Hd by (apply dates_elem; eauto).
      rewrite Hlast in Hd. by apply elem_of_nil in Hd.
Qed.

(** X9.  The month index follows the order of the dates: of two observations,
    the one with the earlier date has the strictly smaller index, and
    [indexOf] gives back the date's own place in the table. *)
Theorem month_index_follows_the_dates (o1 o2 : Entry) :
  o1 ∈ sd → o2 ∈ sd → String.ltb (date o1) (date o2) = true →
  dates p !! Z.to_nat (indexOf (dates p) (date o1)) = Some (date o1)
  ∧ indexOf (dates p) (date o1) < indexOf (dates p) (date o2)
  ∧ ∃ q1 q2,
      js_div (of_Z (indexOf (dates p) (date o1))) (length_of (dates p)) = Fin q1
      ∧ js_div (of_Z (indexOf (dates p) (date o2))) (length_of (dates p)) = Fin q2
      ∧ (q1 < q2)%Q.
Proof.
  intros H1 H2 Hlt.
  pose proof dates_strongly_sorted as Hs. pose proof dates_NoDup as Hnd.
  assert (date o1 ∈ dates p) as [i Hi]%list_elem_of_lookup_1
    by (apply dates_elem; eauto).
  assert (date o2 ∈ dates p) as [j Hj]%list_elem_of_lookup_1
    by (apply dates_elem; eauto).
  rewrite (indexOf_NoDup _ _ _ Hnd Hi), (indexOf_NoDup _ _ _ Hnd Hj), Nat2Z.id.
  assert (i < j)%nat as Hij.
  { destruct (lt_eq_lt_dec i j) as [[?| ->]|Hji]; [done| |].
    - rewrite Hi in Hj. inversion Hj as [E]. rewrite E, ltb_irrefl in Hlt. done.
    - pose proof (strongly_lookup _ j i _ _ Hs Hj Hi Hji) as Hle.
      by rewrite (ltb_not_leb _ _ Hlt) in Hle. }
  split; [done|]. split; [lia|].
  apply lookup_lt_Some in Hj.
  exists (inject_Z (Z.of_nat i) / inject_Z (Z.of_nat (length (dates p))))%Q,
         (inject_Z (Z.of_nat j) / inject_Z (Z.of_nat (length (dates p))))%Q.
  unfold length_of. rewrite !js_div_of_Z by lia. split; [done|]. split; [done|].
  unfold Qdiv. apply Qmult_lt_compat_r.
  - apply Qinv_lt_0_compat, inject_Z_pos. lia.
  - apply inject_Z_lt. lia.
Qed.

(** X10.  The encoder gives the product at place [j] of [products] the
    code [j / N], unless the product is named [__proto__]: that assignment
    changes nothing, and the name reads back as [Object.prototype].  The
    encoder has no other own property, and no two products read as the
    same number. *)
Theorem encoder_is_injective :
  let N := Z.of_nat (length (products p)) in
  (∀ (j : nat) k, products p !! j = Some k → k ≠ proto_key →
     get_property (encoder p) k
     = Num (Fin (inject_Z (Z.of_nat j) / inject_Z N)))
  ∧ get_property (encoder p) proto_key = ObjectPrototype
  ∧ (∀ k, encoder p !! k = None ↔ k ∉ products p ∨ k = proto_key)
  ∧ (∀ k1 k2 c1 c2,
       get_property (encoder p) k1 = Num (Fin c1) →
       get_property (encoder p) k2 = Num (Fin c2) →
       (c1 == c2)%Q → k1 = k2).
Proof.
  intros N.
  destruct (dataProcessing_try_inv sd p table) as (_ & Hps & _ & Henc & _).
  destruct (encoder_proto sd p table) as [Hnone Hproto].
  assert (NoDup (products p)) as Hnd by (rewrite Hps; apply Set_of_NoDup).
  assert (∀ (j : nat) k, products p !! j = Some k → k ≠ proto_key →
            encoder p !! k = Some (Fin (inject_Z (Z.of_nat j) / inject_Z N)))
    as Hcode.
  { intros j k Hj Hk. rewrite Henc. by apply encoder_lookup. }
  split; [|split; [done|split]].
  - intros j k Hj Hk. by apply get_property_own, Hcode.
  - intros k. split.
    + intros Hk. destruct (decide (k = proto_key)) as [|Hne]; [by right|].
      left. intros [j Hj]%list_elem_of_lookup_1.
      by rewrite (Hcode j k Hj Hne) in Hk.
    + intros [Hk| ->]; [|done].
      rewrite Henc, forEach_encode_other by done. apply lookup_empty.
  - intros k1 k2 c1 c2 H1%get_property_Num H2%get_property_Num Heq.
    destruct (encoder_domain sd p k1 _ table H1)
      as [[j1 Hj1]%list_elem_of_lookup_1 Hk1].
    destruct (encoder_domain sd p k2 _ table H2)
      as [[j2 Hj2]%list_elem_of_lookup_1 Hk2].
    rewrite (Hcode j1 k1 Hj1 Hk1) in H1. rewrite (Hcode j2 k2 Hj2 Hk2) in H2.
    inversion H1; inversion H2; subst c1 c2.
    assert (0 < inject_Z N)%Q as HN.
    { apply inject_Z_pos. apply lookup_lt_Some in Hj1. lia. }
    assert (inject_Z (Z.of_nat j1) == inject_Z (Z.of_nat j2))%Q as Hj.
    { apply (Qmult_inj_r _ _ (/ inject_Z N)); [|exact Heq].
      intros E. apply Qinv_lt_0_compat in HN. rewrite E in HN.
      by apply Qlt_irrefl in HN. }
    apply inject_Z_injective, Nat2Z.inj in Hj. subst j2. congruence.
Qed.

End Table.

Lemma dates_ascend_to_the_latest_witness :
  last (dates Samples.scenario_table) = Some "2024-02-01"%string
  ∧ NoDup (dates Samples.scenario_table).
Proof.
  split; [reflexivity|].
  exact (proj1 (proj2 (dates_ascend_to_the_latest Samples.three_observations
                         Samples.scenario_table eq_refl))).
Defined.

Lemma month_index_follows_the_dates_witness :
  indexOf (dates Samples.scenario_table) "2024-01-01"
  < indexOf (dates Samples.scenario_table) "2024-02-01".
Proof.
  refine (proj1 (proj2 (month_index_follows_the_dates
            Samples.three_observations Samples.scenario_table eq_refl
            (mkEntry "2024-01-01" "Gadget" (Fin 50))
            (mkEntry "2024-02-01" "Widget" (Fin 120)) _ _ _))).
  - apply list_elem_of_In. simpl. tauto.
  - apply list_elem_of_In. simpl. tauto.
  - reflexivity.
Defined.

Lemma encoder_is_injective_witness :
  encoder Samples.scenario_table !! "Sprocket"%string = None.
Proof.
  apply (proj1 (proj2 (proj2 (encoder_is_injective
                                Samples.three_observations
                                Samples.scenario_table eq_refl)))).
  left. intros H%list_elem_of_In. vm_compute in H. intuition discriminate.
Defined.

(** X11.  The month axis does not depend on the order of the rows nor on
    repeated months: two data sets in which the same dates occur get the
    same list of dates. *)
Theorem dates_depend_on_the_set_of_dates
    (sd1 sd2 : list Entry) (p1 p2 : Processed) :
  dataProcessing_try sd1 = Returned p1 →
  dataProcessing_try sd2 = Returned p2 →
  (∀ x, x ∈ map date sd1 ↔ x ∈ map date sd2) →
  dates p1 = dates p2.
Proof.
  intros H1 H2 Hset.
  apply ascending_unique;
    [by eapply dates_strongly_sorted|by eapply dates_strongly_sorted
    |by eapply dates_NoDup|by eapply dates_NoDup|].
  intros x. rewrite (dates_elem sd1 p1 H1), (dates_elem sd2 p2 H2).
  specialize (Hset x). rewrite !list_elem_of_fmap in Hset.
  split; intros (o & Ho & <-).
  - destruct (proj1 Hset (ex_intro _ o (conj eq_refl Ho))) as (o' & E & Ho').
    eauto.
  - destruct (proj2 Hset (ex_intro _ o (conj eq_refl Ho))) as (o' & E & Ho').
    eauto.
Qed.

Lemma dates_depend_on_the_set_of_dates_witness :
  dates Samples.scenario_table
  = Array_sort (Set_of ["2024-02-01"; "2024-01-01"; "2024-02-01"; "2024-02-01"]%string).
Proof.
  refine (dates_depend_on_the_set_of_dates
            Samples.three_observations
            [mkEntry "2024-02-01" "A" NaN; mkEntry "2024-01-01" "B" NaN;
             mkEntry "2024-02-01" "C" NaN; mkEntry "2024-02-01" "A" NaN]
            Samples.scenario_table
            (match dataProcessing_try
                     [mkEntry "2024-02-01" "A" NaN; mkEntry "2024-01-01" "B" NaN;
                      mkEntry "2024-02-01" "C" NaN; mkEntry "2024-02-01" "A" NaN]
             with Returned p => p | Threw _ => Samples.scenario_table end)
            eq_refl eq_refl _).
  intros x. rewrite !list_elem_of_In. simpl. tauto.
Defined.

(** *** Products in the order they are first seen *)

Lemma Set_add_all_order seen xs i j x y :
  NoDup seen →
  Set_add_all seen xs !! i = Some x → Set_add_all seen xs !! j = Some y →
  (length seen ≤ i)%nat → (i < j)%nat →
  indexOf xs x < indexOf xs y.
Proof.
  revert seen. induction xs as [|a xs IH]; intros seen Hnd Hi Hj Hlen Hij.
  - simpl in *. apply lookup_lt_Some in Hj. lia.
  - assert (∀ k z, Set_add_all seen (a :: xs) !! k = Some z →
              (length seen ≤ k)%nat → z ∉ seen) as Hfresh.
    { intros k z Hk Hle Hz.
      destruct (Set_add_all_extends seen (a :: xs)) as [ext E].
      pose proof (Set_add_all_NoDup seen (a :: xs) Hnd) as Hnd'.
      apply list_elem_of_lookup_1 in Hz as [k0 Hk0].
      assert (Set_add_all seen (a :: xs) !! k0 = Some z) as Hk0'
        by (rewrite E; by apply lookup_app_l_Some).
      pose proof (NoDup_lookup _ _ _ _ Hnd' Hk Hk0').
      apply lookup_lt_Some in Hk0. lia. }
    assert (∀ k z, Set_add_all seen (a :: xs) !! k = Some z →
              (length seen ≤ k)%nat → z = a ∨ z ∈ xs) as Hin.
    { intros k z Hk Hle.
      assert (z ∈ Set_add_all seen (a :: xs)) as Hz
        by (by eapply list_elem_of_lookup_2).
      apply Set_add_all_elem in Hz as [Hz|Hz].
      - by destruct (Hfresh k z Hk Hle).
      - by apply elem_of_cons in Hz. }
    pose proof (Hfresh i x Hi Hlen) as Hx.
    pose proof (Hfresh j y Hj ltac:(lia)) as Hy.
    pose proof (Hin i x Hi Hlen) as Hxin.
    pose proof (Hin j y Hj ltac:(lia)) as Hyin.
    cbn [Set_add_all] in Hi, Hj. case_bool_decide as Ha.
    + assert (a ≠ x) by (by intros ->). assert (a ≠ y) by (by intros ->).
      destruct Hxin as [->|Hxin]; [done|]. destruct Hyin as [->|Hyin]; [done|].
      rewrite !indexOf_cons_ne by done.
      pose proof (IH seen Hnd Hi Hj Hlen Hij). lia.
    + assert (NoDup (seen ++ [a])) as Hnd'.
      { apply NoDup_app. split; [done|]. split; [|apply NoDup_singleton].
        intros z Hz ->%list_elem_of_singleton. done. }
      destruct (Set_add_all_extends (seen ++ [a]) xs) as [ext E].
      assert (Set_add_all (seen ++ [a]) xs !! length seen = Some a) as Hat.
      { rewrite E, <- app_assoc. rewrite lookup_app_r by lia.
        by rewrite Nat.sub_diag. }
      pose proof (Set_add_all_NoDup (seen ++ [a]) xs Hnd') as Hndr.
      assert (a ≠ y) as Hay.
      { intros ->. pose proof (NoDup_lookup _ _ _ _ Hndr Hj Hat). lia. }
      destruct Hyin as [->|Hyin]; [done|].
      destruct (decide (i = length seen)) as [->|Hi'].
      * rewrite Hat in Hi. inversion Hi; subst x.
        rewrite (indexOf_cons_ne a y) by done.
        unfold indexOf at 1. cbn [indexOf_from]. rewrite String.eqb_refl.
        pose proof (indexOf_bounds xs y Hyin). lia.
      * assert (a ≠ x) as Hax.
        { intros ->. pose proof (NoDup_lookup _ _ _ _ Hndr Hi Hat). lia. }
        destruct Hxin as [->|Hxin]; [done|].
        rewrite !indexOf_cons_ne by done.
        assert (length (seen ++ [a]) ≤ i)%nat
          by (rewrite length_app; simpl; lia).
        pose proof (IH (seen ++ [a]) Hnd' Hi Hj ltac:(done) Hij). lia.
Qed.

(** X12.  The products of the table, which are also the entries of the drop-down
    list, are the products of the observations, each once, in the order in
    which they are first seen. *)
Theorem products_in_first_seen_order (sd : list Entry) (p : Processed) :
  dataProcessing_try sd = Returned p →
  NoDup (products p)
  ∧ (∀ x, x ∈ products p ↔ ∃ o, o ∈ sd ∧ product o = x)
  ∧ (∀ i j x y, products p !! i = Some x → products p !! j = Some y →
       (i < j)%nat →
       indexOf (map product sd) x < indexOf (map product sd) y)
  ∧ (∀ s, Component.salesData s = sd → View.products s = products p).
Proof.
  intros Hp. destruct (dataProcessing_try_inv sd p Hp) as (_ & Hps & _).
  split; [rewrite Hps; apply Set_of_NoDup|].
  split; [by apply products_elem|]. split.
  - intros i j x y Hi Hj Hij. rewrite Hps in Hi, Hj.
    apply (Set_add_all_order [] (map product sd) i j); simpl;
      [apply NoDup_nil_2|done|done|lia|done].
  - intros s <-. by rewrite Hps.
Qed.

Lemma products_in_first_seen_order_witness :
  products Samples.scenario_table = ["Widget"; "Gadget"]%string
  ∧ NoDup (products Samples.scenario_table).
Proof.
  split; [reflexivity|].
  exact (proj1 (products_in_first_seen_order Samples.three_observations
                  Samples.scenario_table eq_refl)).
Defined.

End TableFacts.

(* ===================================================================== *)
(** ** More on predictSales and trainModel *)
(* ===================================================================== *)

Module ForecastExtras.
Import Encoder EncoderFacts EncodingRange JsDate Calendar Component
  JsDateFacts ForecastFacts.

Lemma predictSales_six_per_product_witness :
  length (predictions
            (match predictSales Samples.UTC_minus_5 (Some Samples.third_model)
                     Samples.scenario_store Samples.scenario_store with
             | Returned s => s
             | Threw _ => Samples.scenario_store
             end))
  = (6 * size (list_to_set (map product Samples.three_observations)
               : gset string))%nat.
Proof.
  apply (predictSales_six_per_product Samples.UTC_minus_5 Samples.third_model
           Samples.scenario_store Samples.scenario_store).
  - discriminate.
  - vm_compute. reflexivity.
Defined.

Lemma predictSales_next_six_months_witness :
  ∃ store',
    predictSales 3600000 (Some Samples.third_model) Samples.december_store
      Samples.december_store = Returned store'
    ∧ map date (predictions store')
      = flat_map (λ _, next_six_months 2024 12) ["Widget"%string]
    ∧ length (predictions store') = (6 * 1)%nat.
Proof.
  refine (predictSales_next_six_months 3600000 _ Samples.third_model
            Samples.december_store Samples.december_store
            (match dataProcessing_try (salesData Samples.december_store) with
             | Returned p => p
             | Threw _ => Samples.scenario_table
             end) 2024 12 _ _ _ _ _).
  - unfold msPerDay. lia.
  - reflexivity.
  - reflexivity.
  - lia.
  - lia.
  - vm_compute. discriminate.
Defined.

Section Zone.
Variable LocalTZA : Z.

Lemma entries_products m p lastDate ps ess :
  Forall2 (λ product es,
             Forall2 (λ i e, forecast_entry LocalTZA m p lastDate product i
                             = Returned e) offsets es) ps ess →
  map product (concat ess) = flat_map (replicate 6) ps.
Proof.
  induction 1 as [|pr es ps ess Hes _ IH]; [done|].
  cbn [concat flat_map]. rewrite map_app, IH. f_equal.
  unfold offsets in Hes.
  repeat match goal with
  | H : Forall2 _ (_ :: _) _ |- _ =>
      apply Forall2_cons_inv_l in H as (? & ? & ?%forecast_entry_returned & H & ->)
  | H : Forall2 _ [] _ |- _ => apply Forall2_nil_inv_l in H as ->
  end.
  simpl. repeat match goal with
  | H : _ = mkEntry _ _ _ ∧ _ |- _ => destruct H as [-> _]
  end. done.
Qed.

(** X14.  When [predictSales] returns on a non-empty [salesData], the entries it
    stores come product by product, in the order of the table, six for
    each; it replaces the predictions and touches nothing else. *)
Theorem predictions_grouped_by_product
    (m : Model) (snap store store' : State) :
  salesData snap ≠ [] →
  predictSales LocalTZA (Some m) snap store = Returned store' →
  map product (predictions store')
  = flat_map (replicate 6) (Set_of (map product (salesData snap)))
  ∧ store' = setPredictions (predictions store') store.
Proof.
  intros Hne Hp.
  apply (predictSales_returned LocalTZA) in Hp as (p & ess & Hp & -> & Hess);
    [|done].
  destruct (dataProcessing_try_inv _ p Hp) as (_ & <- & _).
  cbn [predictions setPredictions]. split; [|done].
  by apply (entries_products m p (lastDate_of (dates p))).
Qed.

(** X15.  A last observed month whose digits are not a month of the calendar,
    such as 2024-13 or 2024-00, both of which the row filter lets through,
    gives the invalid date: [predictSales] ends with the exception
    [Invalid time value], and [trainModel] then stores the model, sets the
    trained flag and shows that message, with the predictions left as they
    were. *)
Theorem invalid_last_month_throws
    (m : Model) (snap store : State) (p : Processed) (ym : string) :
  dataProcessing_try (salesData snap) = Returned p →
  last (dates p) = Some (ym +:+ "-01") →
  matches_year_month ym = true →
  ¬ (1 ≤ month_number ym ≤ 12) →
  predictSales LocalTZA (Some m) snap store = Threw invalid_time_value
  ∧ ∀ fit during_fit,
      fit (inputs p) (outputs p) = Returned m →
      trainModel LocalTZA fit during_fit snap store
      = setStatus invalid_time_value
          (setIsModelTrained true
             (setModel (Some m) (during_fit (setStatus training_started store)))).
Proof.
  intros Hp Hlast Hym Hmonth.
  assert (new_Date (ym +:+ "-01") = None) as Hdate.
  { destruct ym as [|y1 [|y2 [|y3 [|y4 [|d [|m1 [|m2 [|]]]]]]]];
      try discriminate.
    cbv beta iota zeta fix delta [String.append new_Date].
    cbn [month_number] in Hmonth.
    destruct (forallb is_digit _ && _ && _); [|done].
    destruct (Z.leb_spec 1 (digits_value [m1; m2])),
             (Z.leb_spec (digits_value [m1; m2]) 12); try done. lia. }
  assert (∀ s, predictSales LocalTZA (Some m) snap s = Threw invalid_time_value)
    as Hthrow.
  { intros s. unfold predictSales, dataProcessing. rewrite Hp.
    unfold lastDate_of. rewrite Hlast, Hdate.
    destruct (dataProcessing_try_inv _ p Hp) as (Hne & Hps & _).
    destruct (products p) as [|pr ps] eqn:E; [|done].
    destruct (TableFacts.nonempty_elem _ Hne) as [o Ho].
    assert (product o ∈ products p) as Hin
      by (apply (TableFacts.products_elem _ p Hp); eauto).
    rewrite E in Hin. by apply elem_of_nil in Hin. }
  split; [apply Hthrow|].
  intros fit during_fit Hfit. unfold trainModel, dataProcessing.
  rewrite Hp, Hfit. by rewrite Hthrow.
Qed.

End Zone.

Lemma invalid_last_month_throws_witness :
  predictSales 0 (Some Samples.third_model) Samples.month_13_store
    Samples.month_13_store = Threw invalid_time_value.
Proof.
  refine (proj1 (invalid_last_month_throws 0 Samples.third_model
            Samples.month_13_store Samples.month_13_store
            (match dataProcessing_try (salesData Samples.month_13_store) with
             | Returned p => p
             | Threw _ => Samples.scenario_table
             end) "2024-13" _ _ _ _)).
  - reflexivity.
  - reflexivity.
  - reflexivity.
  - vm_compute. intros [_ H]. by apply H.
Defined.

Lemma predictions_grouped_by_product_witness :
  map product
    (predictions
       (match predictSales Samples.UTC_minus_5 (Some Samples.third_model)
                Samples.scenario_store Samples.scenario_store with
        | Returned s => s
        | Threw _ => Samples.scenario_store
        end))
  = flat_map (replicate 6)
      (Set_of (map product (salesData Samples.scenario_store))).
Proof.
  apply (predictions_grouped_by_product Samples.UTC_minus_5
           Samples.third_model Samples.scenario_store Samples.scenario_store
           (match predictSales Samples.UTC_minus_5 (Some Samples.third_model)
                    Samples.scenario_store Samples.scenario_store with
            | Returned s => s
            | Threw _ => Samples.scenario_store
            end)).
  - discriminate.
  - vm_compute. reflexivity.
Defined.

(** *** trainModel as a whole *)

Lemma coherent_setStatus v s : View.coherent (setStatus v s) ↔ View.coherent s.
Proof. done. Qed.

(** X16.  The handlers keep the state coherent: starting from the initial state,
    after any uploads, selections and training runs, the trained flag is
    set exactly when a model is stored and there are predictions only when
    the flag is set, so the chart is never shown without a model. *)
Theorem handlers_keep_the_state_coherent :
  View.coherent View.initial
  ∧ (∀ text s, View.coherent s → View.coherent (onload text s))
  ∧ (∀ v s, View.coherent s → View.coherent (View.setSelectedProduct v s))
  ∧ (∀ zone fit during_fit snap s,
       (∀ s0, View.coherent s0 → View.coherent (during_fit s0)) →
       View.coherent s →
       View.coherent (trainModel zone fit during_fit snap s))
  ∧ (∀ s, View.coherent s → View.chart_shown s = true → is_Some (model s)).
Proof.
  split; [|split; [|split; [|split]]].
  - split; simpl; [|done]. split; [done|]. by intros [? ?].
  - intros text s Hs. unfold onload. by destruct (Parser.parse text).
  - by intros v s Hs.
  - intros zone fit during_fit snap s Hduring Hs.
    unfold trainModel, dataProcessing.
    destruct (dataProcessing_try (salesData snap)) as [p|msg] eqn:Hp; [|done].
    destruct (fit (inputs p) (outputs p)) as [m|msg].
    + unfold predictSales, dataProcessing. rewrite Hp.
      destruct (forEach_product _ _ _ _ _ _) as [ps|msg];
        (split; simpl; [split; [by eexists|done]|done]).
    + apply coherent_setStatus, Hduring. by apply coherent_setStatus.
  - intros s [Hflag _] [Ht _]%andb_true_iff. by apply Hflag.
Qed.

(** Training fails early when there is nothing to train on or when the fit
    throws: with an empty [salesData] the only effect is the message of
    [dataProcessing], and when the fit throws its message becomes the
    status while no model, flag or prediction is stored. *)
Theorem trainModel_failures
    (zone : Z) (fit : list feature_row → list jsnum → outcome Model)
    (during_fit : State → State) (snap store : State) :
  (salesData snap = [] →
     trainModel zone fit during_fit snap store
     = setStatus ("Error processing data: " +:+ no_data) store)
  ∧ (∀ p message,
       dataProcessing_try (salesData snap) = Returned p →
       fit (inputs p) (outputs p) = Threw message →
       trainModel zone fit during_fit snap store
       = setStatus message (during_fit (setStatus training_started store))).
Proof.
  split.
  - intros E. unfold trainModel, dataProcessing. by rewrite E.
  - intros p message Hp Hfit. unfold trainModel, dataProcessing.
    by rewrite Hp, Hfit.
Qed.

Section Eastward.
Variable LocalTZA : Z.
Hypothesis east : 0 ≤ LocalTZA < msPerDay.

(** X17.  A training run that succeeds, on a host whose zone is a constant
    offset from UTC (no daylight saving), at or east of UTC and less than
    a day away: the model is stored, the flag set, the status is the
    completion message and the chart is shown; the predictions are those of
    the data the handler started with, six months for each of its
    products, even if another file was loaded during the fit. *)
Theorem trainModel_success
    (fit : list feature_row → list jsnum → outcome Model)
    (during_fit : State → State) (snap store : State)
    (p : Processed) (m : Model) (y mo : Z) :
  dataProcessing_try (salesData snap) = Returned p →
  fit (inputs p) (outputs p) = Returned m →
  last (dates p) = Some (year_month (y, mo) +:+ "-01") →
  0 ≤ y → 1 ≤ mo ≤ 12 → fst (months_after y mo 6) ≤ 9999 →
  let s' := trainModel LocalTZA fit during_fit snap store in
  status s' = training_completed
  ∧ model s' = Some m ∧ isModelTrained s' = true
  ∧ map date (predictions s') = flat_map (λ _, next_six_months y mo) (products p)
  ∧ map product (predictions s') = flat_map (replicate 6) (products p)
  ∧ salesData s' = salesData (during_fit (setStatus training_started store))
  ∧ View.chart_shown s' = true.
Proof.
  intros Hp Hfit Hlast Hy Hmo Hend s'. unfold s', trainModel, dataProcessing.
  rewrite Hp, Hfit.
  rewrite (predictSales_months LocalTZA east m snap _ p y mo) by done.
  cbn [status model isModelTrained predictions salesData setStatus
       setPredictions setIsModelTrained setModel].
  unfold View.chart_shown.
  cbn [isModelTrained predictions setStatus setPredictions setIsModelTrained
       setModel].
  destruct (dataProcessing_try_inv _ p Hp) as (Hne & _).
  assert (products p ≠ []) as Hps.
  { intros E. destruct (TableFacts.nonempty_elem _ Hne) as [o Ho].
    assert (product o ∈ products p) as Hin
      by (apply (TableFacts.products_elem _ p Hp); eauto).
    rewrite E in Hin. by apply elem_of_nil in Hin. }
  repeat split; try done.
  - induction (products p) as [|pr ps IH]; [done|].
    cbn [flat_map]. rewrite map_app. f_equal.
    destruct ps; [done|]. by apply IH.
  - induction (products p) as [|pr ps IH]; [done|].
    cbn [flat_map]. rewrite map_app. f_equal.
    destruct ps; [done|]. by apply IH.
  - destruct (products p); done.
Qed.

End Eastward.

Lemma trainModel_success_witness :
  View.chart_shown
    (trainModel 0 (λ _ _, Returned Samples.third_model)
       (onload Samples.sample_rows) Samples.december_store
       Samples.december_store) = true.
Proof.
  refine (proj2 (proj2 (proj2 (proj2 (proj2 (proj2
    (trainModel_success 0 _ (λ _ _, Returned Samples.third_model)
       (onload Samples.sample_rows) Samples.december_store
       Samples.december_store
       (match dataProcessing_try (salesData Samples.december_store) with
        | Returned p => p
        | Threw _ => Samples.scenario_table
        end) Samples.third_model 2024 12 _ _ _ _ _ _))))))).
  - unfold msPerDay. lia.
  - reflexivity.
  - reflexivity.
  - reflexivity.
  - lia.
  - lia.
  - vm_compute. discriminate.
Defined.

End ForecastExtras.

(* ===================================================================== *)
(** ** The chart rows and the product selector *)
(* ===================================================================== *)

Module ChartFacts.
Import Encoder EncoderFacts Component.

Lemma chart_row_fields d :
  Chart.name (Chart.chart_row d) = date d
  ∧ Chart.predicted (Chart.chart_row d) = quantity d
  ∧ Chart.product (Chart.chart_row d) = product d.
Proof. by destruct d. Qed.

Lemma filteredPredictions_elem s d :
  d ∈ Chart.filteredPredictions s
  ↔ d ∈ predictions s
    ∧ (selectedProduct s = "all"%string ∨ product d = selectedProduct s).
Proof.
  unfold Chart.filteredPredictions.
  destruct (String.eqb_spec (selectedProduct s) "all") as [E|E].
  - split; [by auto|]. by intros [? _].
  - rewrite list_elem_of_filter. split.
    + intros [? ?]. auto.
    + intros [? [?|?]]; done.
Qed.

Lemma filteredPredictions_length s :
  (length (Chart.filteredPredictions s) ≤ length (predictions s))%nat.
Proof.
  unfold Chart.filteredPredictions.
  destruct (String.eqb _ _); [done|]. apply length_filter.
Qed.

(** X18.  The product selector is on the page exactly when the Train button is
    enabled, and then it has a product to offer; its option values are
    distinct unless a product of the data is itself named [all]. *)
Theorem selector_shown_with_the_button (s : State) :
  View.select_shown s = negb (View.train_disabled s)
  ∧ (View.select_shown s = true ↔ View.products s ≠ [])
  ∧ (NoDup (View.select_options s)
     ↔ "all"%string ∉ map product (salesData s)).
Proof.
  unfold View.select_options, View.products, View.select_shown,
    View.train_disabled.
  split; [|split].
  - by destruct (salesData s).
  - destruct (salesData s) as [|d sd]; cbn [length map].
    + split; [done|]. by intros [].
    + split; [|done]. intros _ E.
      pose proof (Set_of_head (product d) (map product sd)) as Hh.
      by rewrite E in Hh.
  - rewrite NoDup_cons, Set_of_elem. split; [by intros [? _]|].
    intros ?. split; [done|apply Set_of_NoDup].
Qed.

Section Locale.
Variable localeCompare : string → string → Z.

Local Abbreviation le_name :=
  (λ a b : Chart.ChartRow,
     localeCompare (Chart.name a) (Chart.name b) ≤ 0).

Lemma chart_insert_perm x l : Chart.sort_insert localeCompare x l ≡ₚ x :: l.
Proof.
  induction l as [|y l IH]; simpl; [done|].
  destruct (Chart.by_name localeCompare x y <=? 0); [done|].
  rewrite IH. apply Permutation_swap.
Qed.

Lemma chart_sort_perm l : Chart.Array_sort localeCompare l ≡ₚ l.
Proof.
  induction l as [|x l IH]; simpl; [done|].
  by rewrite chart_insert_perm, IH.
Qed.


(** X19.  The rows of the chart are the predictions of the selected product, or
    all of them when the selection is [all], each turned into a row with its
    date as name; sorting loses and adds none, whatever the collation. *)
Theorem getChartData_rows (s : State) :
  Chart.getChartData localeCompare s
    ≡ₚ map Chart.chart_row (Chart.filteredPredictions s)
  ∧ (∀ r, r ∈ Chart.getChartData localeCompare s
          ↔ ∃ d, d ∈ predictions s
                 ∧ (selectedProduct s = "all"%string
                    ∨ product d = selectedProduct s)
                 ∧ r = Chart.mkChartRow (date d) (quantity d) (product d))
  ∧ (length (Chart.getChartData localeCompare s) ≤ length (predictions s))%nat.
Proof.
  unfold Chart.getChartData. split; [apply chart_sort_perm|]. split.
  - intros r. rewrite chart_sort_perm, list_elem_of_fmap.
    split.
    + intros (d & -> & [Hd Hsel]%filteredPredictions_elem).
      exists d. by destruct d.
    + intros (d & Hd & Hsel & ->). exists d. split; [by destruct d|].
      by apply filteredPredictions_elem.
  - rewrite chart_sort_perm, length_map. apply filteredPredictions_length.
Qed.

(** Predictions that already come in the order of their dates are charted
    as they are. *)
Lemma chart_sort_sorted l :
  Sorted le_name l → Chart.Array_sort localeCompare l = l.
Proof.
  induction 1 as [|x l Hl IH Hx]; [done|].
  cbn [Chart.Array_sort foldr]. fold (Chart.Array_sort localeCompare l).
  rewrite IH. destruct Hx as [|y l' Hxy]; [done|].
  cbn [Chart.sort_insert]. unfold Chart.by_name.
  by destruct (Z.leb_spec (localeCompare (Chart.name x) (Chart.name y)) 0);
    [|lia].
Qed.

Hypothesis total : ∀ a b, localeCompare a b ≤ 0 ∨ localeCompare b a ≤ 0.
Hypothesis trans :
  ∀ a b c, localeCompare a b ≤ 0 → localeCompare b c ≤ 0 →
           localeCompare a c ≤ 0.

Lemma sort_insert_sorted x l :
  StronglySorted le_name l →
  StronglySorted le_name (Chart.sort_insert localeCompare x l).
Proof.
  induction 1 as [|y l Hl IH Hy]; cbn [Chart.sort_insert].
  - by repeat constructor.
  - unfold Chart.by_name.
    destruct (Z.leb_spec (localeCompare (Chart.name x) (Chart.name y)) 0)
      as [Hxy|Hxy].
    + constructor; [by constructor|]. constructor; [done|].
      eapply Forall_impl; [exact Hy|]. intros z Hz. by eapply trans.
    + constructor; [done|].
      rewrite chart_insert_perm. constructor; [|done].
      destruct (total (Chart.name x) (Chart.name y)); [lia|done].
Qed.

Lemma sort_insert_stable n x l :
  filter (λ r, Chart.name r = n) (Chart.sort_insert localeCompare x l)
  = filter (λ r, Chart.name r = n) (x :: l).
Proof.
  induction l as [|y l IH]; [done|]. cbn [Chart.sort_insert].
  unfold Chart.by_name.
  destruct (Z.leb_spec (localeCompare (Chart.name x) (Chart.name y)) 0)
    as [Hxy|Hxy]; [done|].
  assert (Chart.name x ≠ Chart.name y) as Hne.
  { intros E. rewrite E in Hxy.
    destruct (total (Chart.name y) (Chart.name y)); lia. }
  rewrite (filter_cons _ y), IH, !filter_cons.
  repeat case_decide; congruence.
Qed.

(** X20.  Under a collation that is a total preorder, the chart rows come in
    ascending order of their names, and rows of the same name (the same
    month of different products) keep the order of the predictions. *)
Theorem getChartData_sorted_and_stable (s : State) :
  StronglySorted le_name (Chart.getChartData localeCompare s)
  ∧ ∀ n, filter (λ r, Chart.name r = n) (Chart.getChartData localeCompare s)
         = filter (λ r, Chart.name r = n)
             (map Chart.chart_row (Chart.filteredPredictions s)).
Proof.
  unfold Chart.getChartData.
  induction (map Chart.chart_row (Chart.filteredPredictions s)) as [|x l IH].
  - split; [constructor|done].
  - destruct IH as [IH1 IH2]. cbn [Chart.Array_sort foldr].
    fold (Chart.Array_sort localeCompare l). split.
    + by apply sort_insert_sorted.
    + intros n. rewrite sort_insert_stable, !filter_cons, IH2. done.
Qed.

End Locale.

Lemma code_unit_order_leb a b :
  Samples.code_unit_order a b ≤ 0 ↔ String.leb a b = true.
Proof.
  unfold Samples.code_unit_order, String.leb.
  destruct (String.compare a b); split; (done || lia).
Qed.

Lemma code_unit_order_total a b :
  Samples.code_unit_order a b ≤ 0 ∨ Samples.code_unit_order b a ≤ 0.
Proof.
  rewrite !code_unit_order_leb.
  destruct (String.leb_total a b); auto.
Qed.

Lemma code_unit_order_trans a b c :
  Samples.code_unit_order a b ≤ 0 → Samples.code_unit_order b c ≤ 0 →
  Samples.code_unit_order a c ≤ 0.
Proof. rewrite !code_unit_order_leb. apply TableFacts.leb_trans. Qed.

Lemma getChartData_sorted_and_stable_witness :
  StronglySorted
    (λ a b, Samples.code_unit_order (Chart.name a) (Chart.name b) ≤ 0)
    (Chart.getChartData Samples.code_unit_order Samples.chart_store)
  ∧ filter (λ r, Chart.name r = "2025-01"%string)
      (Chart.getChartData Samples.code_unit_order Samples.chart_store)
    = filter (λ r, Chart.name r = "2025-01"%string)
        (map Chart.chart_row (Chart.filteredPredictions Samples.chart_store)).
Proof.
  pose proof (getChartData_sorted_and_stable Samples.code_unit_order
                code_unit_order_total code_unit_order_trans
                Samples.chart_store) as [Hsorted Hstable].
  split; [exact Hsorted|exact (Hstable "2025-01"%string)].
Defined.

End ChartFacts.

(* ===================================================================== *)
(** ** From the forecast to the chart *)
(* ===================================================================== *)

Module ChartPipeline.
Import Encoder EncoderFacts EncodingRange JsDate Calendar Component
  JsDateFacts ForecastFacts.





Lemma filter_entries_of_product (f : string → Z → Entry) pr ps :
  (∀ q i, product (f q i) = q) → NoDup ps → pr ∈ ps →
  filter (λ d, product d = pr) (flat_map (λ q, map (f q) offsets) ps)
  = map (f pr) offsets.
Proof.
  intros Hf. unfold offsets.
  assert (∀ qs, pr ∉ qs →
            filter (λ d, product d = pr)
              (flat_map (λ q, map (f q) [1; 2; 3; 4; 5; 6]) qs) = [])
    as Habsent.
  { induction qs as [|q qs IH]; [done|].
    intros [Hq Hqs]%not_elem_of_cons. cbn [flat_map map app].
    rewrite !filter_cons. rewrite !Hf.
    repeat case_decide; try congruence. by apply IH. }
  induction 1 as [|q ps Hq Hnd IH]; [by intros ?%elem_of_nil|].
  intros [->|Hin]%elem_of_cons; cbn [flat_map map app].
  - rewrite !filter_cons, !Hf. repeat case_decide; try congruence.
    by rewrite Habsent.
  - assert (q ≠ pr) by (intros ->; done).
    rewrite !filter_cons, !Hf. repeat case_decide; try congruence.
    by apply IH.
Qed.

Lemma Sorted_map_inv {A B} (R : B → B → Prop) (g : A → B) l :
  Sorted R (map g l) → Sorted (λ a b, R (g a) (g b)) l.
Proof.
  induction l as [|x l IH]; [constructor|].
  cbn [map]. intros [Hl Hx]%Sorted_inv. constructor; [by apply IH|].
  destruct l; [constructor|]. apply HdRel_inv in Hx. by constructor.
Qed.

Section Locale.
Variable localeCompare : string → string → Z.


Section Eastward.
Variable LocalTZA : Z.
Hypothesis east : 0 ≤ LocalTZA < msPerDay.

(** X22.  On a host whose zone is a constant offset from UTC (no daylight
    saving), at or east of UTC and less than a day away, and with a
    collation that puts the six coming months in their calendar order, the
    chart of a selected product is the six months that follow the last
    observed one, in that order, each with
    [Math.max(0, Math.round(raw * 1000))] for the raw output of the model
    on the feature row of that product and offset. *)
Theorem chart_of_a_selected_product
    (m : Model) (snap store : State) (p : Processed) (y mo : Z)
    (pr : string) :
  dataProcessing_try (salesData snap) = Returned p →
  last (dates p) = Some (year_month (y, mo) +:+ "-01") →
  0 ≤ y → 1 ≤ mo ≤ 12 → fst (months_after y mo 6) ≤ 9999 →
  Sorted (λ a b, localeCompare a b ≤ 0) (next_six_months y mo) →
  pr ∈ products p → pr ≠ "all"%string →
  ∃ store',
    predictSales LocalTZA (Some m) snap store = Returned store'
    ∧ Chart.getChartData localeCompare (View.setSelectedProduct pr store')
      = map (λ i, Chart.mkChartRow (year_month (months_after y mo i))
                    (predicted_quantity (m (forecast_input p pr i))) pr)
            offsets.
Proof.
  intros Hp Hlast Hy Hmo Hend Hsorted Hpr Hall. eexists.
  split; [by apply (predictSales_months LocalTZA east m snap store p y mo)|].
  unfold Chart.getChartData, Chart.filteredPredictions,
    View.setSelectedProduct.
  cbn [selectedProduct predictions setPredictions].
  apply String.eqb_neq in Hall. rewrite Hall.
  destruct (dataProcessing_try_inv _ p Hp) as (_ & Hps & _).
  rewrite (filter_entries_of_product
             (λ product i, mkEntry (year_month (months_after y mo i)) product
                             (predicted_quantity (m (forecast_input p product i)))))
    by (done || rewrite Hps; apply Set_of_NoDup).
  rewrite ChartFacts.chart_sort_sorted.
  - by rewrite map_map.
  - apply (Sorted_map_inv (λ a b, localeCompare a b ≤ 0) Chart.name).
    by rewrite !map_map.
Qed.

End Eastward.
End Locale.


Lemma chart_of_a_selected_product_witness :
  ∃ store',
    predictSales 0 (Some Samples.third_model) Samples.december_store
      Samples.december_store = Returned store'
    ∧ Chart.getChartData Samples.code_unit_order
        (View.setSelectedProduct "Widget" store')
      = map (λ i, Chart.mkChartRow (year_month (months_after 2024 12 i))
                    (predicted_quantity
                       (Samples.third_model
                          (forecast_input
                             (match dataProcessing_try
                                      (salesData Samples.december_store) with
                              | Returned p => p
                              | Threw _ => Samples.scenario_table
                              end) "Widget" i))) "Widget")
            offsets.
Proof.
  refine (chart_of_a_selected_product Samples.code_unit_order 0 _
            Samples.third_model Samples.december_store Samples.december_store
            (match dataProcessing_try (salesData Samples.december_store) with
             | Returned p => p
             | Threw _ => Samples.scenario_table
             end) 2024 12 "Widget" _ _ _ _ _ _ _ _).
  - unfold msPerDay. lia.
  - reflexivity.
  - reflexivity.
  - lia.
  - lia.
  - vm_compute. discriminate.
  - unfold next_six_months, offsets. cbn [map].
    repeat (constructor; try (vm_compute; discriminate)).
  - vm_compute. by repeat constructor.
  - discriminate.
Defined.

End ChartPipeline.

(* ===================================================================== *)
(** ** The time scale of training and of the forecast *)
(* ===================================================================== *)

Module ScaleFacts.
Import Encoder EncoderFacts JsNumber JsNumberFacts EncodingRange Component.

Lemma Qdiv_lt_cross (a b c d : Z) :
  0 < b → 0 < d → a * d < c * b →
  (inject_Z a / inject_Z b < inject_Z c / inject_Z d)%Q.
Proof.
  intros Hb Hd Hlt.
  apply Qlt_shift_div_l; [by apply inject_Z_pos|].
  unfold Qdiv. rewrite <- Qmult_assoc, (Qmult_comm (/ _)), Qmult_assoc.
  apply Qlt_shift_div_r; [by apply inject_Z_pos|].
  rewrite <- !inject_Z_mult. by apply inject_Z_lt.
Qed.

(** X23.  The forecast does not continue the scale of training: with two or more
    months in the table, the model is asked about the month after the last
    observed one at a time index below the one it was trained with for that
    last month, (M + 1) / (M + 6) against (M - 1) / M. *)
Theorem forecast_scale_overlaps_training
    (sd : list Entry) (p : Processed) (latest pr : string) :
  dataProcessing_try sd = Returned p →
  last (dates p) = Some latest →
  (2 ≤ length (dates p))%nat →
  ∃ q_last q_next,
    js_div (of_Z (indexOf (dates p) latest)) (length_of (dates p)) = Fin q_last
    ∧ fst (forecast_input p pr 1) = Fin q_next
    ∧ (q_next < q_last)%Q.
Proof.
  intros Hp Hlast HM.
  rewrite last_lookup in Hlast.
  rewrite (TableFacts.indexOf_NoDup _ _ _ (TableFacts.dates_NoDup sd p Hp) Hlast).
  cbn [forecast_input fst]. unfold time_index, length_of.
  rewrite !js_div_of_Z by lia.
  eexists _, _. split; [done|]. split; [done|].
  apply Qdiv_lt_cross; nia.
Qed.

Lemma forecast_scale_overlaps_training_witness :
  ∃ q_last q_next,
    js_div (of_Z (indexOf (dates Samples.scenario_table) "2024-02-01"))
      (length_of (dates Samples.scenario_table)) = Fin q_last
    ∧ fst (forecast_input Samples.scenario_table "Widget" 1) = Fin q_next
    ∧ (q_next < q_last)%Q.
Proof.
  apply (forecast_scale_overlaps_training Samples.three_observations
           Samples.scenario_table "2024-02-01" "Widget").
  - reflexivity.
  - reflexivity.
  - vm_compute. lia.
Defined.

Section Rationals.
Local Open Scope Q_scope.

Lemma of_Q_moderate q (z : Z) :
  0 <= q → q <= inject_Z z → (z < 2 ^ 1000)%Z → of_Q q = Fin q.
Proof.
  intros H0 Hz Hlim. unfold of_Q.
  destruct (Qle_bool double_limit (Qabs q)) eqn:E; [|done].
  apply Qle_bool_iff in E. rewrite Qabs_pos in E by done.
  assert (inject_Z z < double_limit) as Hlt.
  { unfold double_limit. apply inject_Z_lt.
    assert (2 ^ 1000 < 2 ^ 1024 - 2 ^ 970)%Z by (by vm_compute). lia. }
  exfalso. apply (Qlt_irrefl double_limit).
  eapply Qle_lt_trans; [exact E|]. eapply Qle_lt_trans; [exact Hz|done].
Qed.

Lemma Qfloor_half (z : Z) q :
  q == inject_Z z → Qfloor (q + (1 # 2)) = z.
Proof.
  intros E. rewrite E.
  assert (inject_Z z + (1 # 2) == (2 * z + 1) # 2) as -> .
  { unfold Qeq, Qplus, inject_Z. simpl. lia. }
  simpl. symmetry. apply Z.div_unique with (r := 1%Z); lia.
Qed.

Lemma Qdiv_1000 q : 0 <= q → 0 <= q / 1000 <= q ∧ q / 1000 * 1000 == q.
Proof.
  intros H. assert (q / 1000 == q * (1 # 1000)) as E by field.
  rewrite E. split; [split|]; [lra|lra|field].
Qed.

Lemma scale_round_trip q (z : Z) :
  q == inject_Z z → (0 <= z < 2 ^ 51)%Z →
  predicted_quantity (js_div (Fin q) (Fin 1000)) = Fin (inject_Z z).
Proof.
  intros E Hz. unfold predicted_quantity.
  assert (0 <= q) as Hq0 by (rewrite E; apply (inject_Z_le 0); lia).
  assert (q <= inject_Z z) as Hqz by (rewrite E; apply Qle_refl).
  destruct (Qdiv_1000 q Hq0) as [[H0 H1] H2].
  cbn [js_div]. change (Qeq_bool 1000 0) with false. cbn iota.
  assert (z < 2 ^ 1000)%Z as Hlim.
  { assert (2 ^ 51 < 2 ^ 1000)%Z by (by vm_compute). lia. }
  assert (q / 1000 <= inject_Z z) as H3
    by (eapply Qle_trans; [exact H1|exact Hqz]).
  rewrite (of_Q_moderate _ z H0 H3 Hlim). cbn [js_mul].
  rewrite (of_Q_moderate _ z); [|by rewrite H2..|done].
  cbn [Math_round]. rewrite (Qfloor_half z) by (by rewrite H2).
  cbn [Math_max].
  assert (Qle_bool 0 (inject_Z z) = true) as ->
    by (apply Qle_bool_iff, (inject_Z_le 0); lia).
  done.
Qed.

End Rationals.

(** X24.  Dividing the quantities by 1000 for training and multiplying the
    output by 1000 for the forecast undo each other: the table has one
    input row and one output per observation, and a model that answers
    with the training output of an observation of a whole quantity from 0
    to 2^51 is shown as predicting that quantity. *)
Theorem training_scale_is_undone
    (sd : list Entry) (p : Processed) (i : nat) (o : Entry) (q : Q) (z : Z) :
  dataProcessing_try sd = Returned p →
  sd !! i = Some o → quantity o = Fin q → (q == inject_Z z)%Q →
  0 ≤ z < 2 ^ 51 →
  length (inputs p) = length sd
  ∧ length (outputs p) = length sd
  ∧ ∃ out, outputs p !! i = Some out
      ∧ predicted_quantity out = Fin (inject_Z z).
Proof.
  intros Hp Hi Hq E Hz.
  assert (sd ≠ []) as Hne by (intros ->; discriminate).
  rewrite (dataProcessing_try_returns sd Hne) in Hp.
  inversion Hp; subst p; clear Hp. cbn [inputs outputs].
  rewrite !length_map. split; [done|]. split; [done|].
  exists (js_div (quantity o) (Fin 1000)). split.
  - by rewrite list_lookup_fmap, Hi.
  - rewrite Hq. by apply scale_round_trip.
Qed.

Lemma training_scale_is_undone_witness :
  ∃ out, outputs Samples.scenario_table !! 0%nat = Some out
    ∧ predicted_quantity out = Fin (inject_Z 100).
Proof.
  apply (training_scale_is_undone Samples.three_observations
           Samples.scenario_table 0 (mkEntry "2024-01-01" "Widget" (Fin 100))
           100 100).
  - reflexivity.
  - reflexivity.
  - reflexivity.
  - reflexivity.
  - by vm_compute.
Defined.

End ScaleFacts.
